(** * Weather ETL: JSON flattening, table shaping and the run's external effects

    A shallow embedding of [main.py]: the weather fetcher, the two row
    flatteners, the current and forecast transformers, the table writer and the
    orchestrator, followed by the properties the specification states about
    them. *)

From Stdlib Require Import ZArith List String Ascii Bool Lia ZifyBool.
From Stdlib Require Import Numbers.DecimalString.
Import ListNotations.
Open Scope string_scope.
Open Scope list_scope.

Set Warnings "-register-all".

(** ** Python values

    What [response.json()] returns: a tree of dicts, lists and scalars.  A dict
    is kept as the list of its items in insertion order; a float is identified
    with its [repr] text, which is all the program ever does with one. *)

Inductive json : Type :=
| JNull
| JBool (b : bool)
| JInt (z : Z)
| JFloat (repr : string)
| JStr (s : string)
| JList (l : list json)
| JDict (d : list (string * json)).

Definition dict : Type := list (string * json).

Module Dict.
Section Ops.
Context {A : Type}.

Definition keys (d : list (string * A)) : list string := map fst d.

(** [d[k]] as a lookup; [None] is Python's [KeyError]. *)
Fixpoint get (d : list (string * A)) (k : string) : option A :=
  match d with
  | [] => None
  | (k', v) :: rest => if String.eqb k' k then Some v else get rest k
  end.

(** [d[k] = v]: an existing key keeps its position, a new one goes last. *)
Fixpoint set (d : list (string * A)) (k : string) (v : A) : list (string * A) :=
  match d with
  | [] => [(k, v)]
  | (k', v') :: rest =>
      if String.eqb k' k then (k', v) :: rest else (k', v') :: set rest k v
  end.
End Ops.
End Dict.

(** [k in l] on strings. *)
Definition mem (k : string) (l : list string) : bool := existsb (String.eqb k) l.

(** Duplicate-free key lists: the invariant of every Python dict. *)
Fixpoint nodupb (l : list string) : bool :=
  match l with
  | [] => true
  | x :: rest => negb (mem x rest) && nodupb rest
  end.

Fixpoint wf_json (v : json) : bool :=
  match v with
  | JList l => forallb wf_json l
  | JDict d =>
      nodupb (map fst d)
      && forallb (fun kv => match kv with (_, x) => wf_json x end) d
  | _ => true
  end.

(** [isinstance(value, dict)], with the dict it found. *)
Definition as_dict (v : json) : option dict :=
  match v with JDict d => Some d | _ => None end.

(** ** Exceptions and results *)

Inductive exn : Type :=
| HTTPError (msg : string)          (* requests.exceptions.HTTPError *)
| RequestException (msg : string)   (* any other requests.exceptions.RequestException *)
| KeyError (key : json)
| IndexError
| TypeError
| AttributeError
| ValueError (msg : string)
| OutOfBoundsDatetime
| MergeError
| OtherException (msg : string)     (* any other subclass of Exception *)
| KeyboardInterrupt.                (* a BaseException that is not an Exception *)

(** [except requests.exceptions.RequestException]. *)
Definition is_RequestException (e : exn) : bool :=
  match e with HTTPError _ | RequestException _ => true | _ => false end.

(** [except Exception]. *)
Definition is_Exception (e : exn) : bool :=
  match e with KeyboardInterrupt => false | _ => true end.

Inductive result (A : Type) : Type :=
| Ok (a : A)
| Raise (e : exn).
Arguments Ok {A} a.
Arguments Raise {A} e.

Definition rbind {A B} (r : result A) (f : A -> result B) : result B :=
  match r with Ok a => f a | Raise e => Raise e end.

(** ** The Python operations the program applies to parsed JSON *)

(** [v[k]] for a string [k]. *)
Definition getitem (v : json) (k : string) : result json :=
  match v with
  | JDict d => match Dict.get d k with Some x => Ok x | None => Raise (KeyError (JStr k)) end
  | _ => Raise TypeError
  end.

(** [v[0]]. *)
Definition getitem0 (v : json) : result json :=
  match v with
  | JList (x :: _) => Ok x
  | JList [] => Raise IndexError
  | JStr (String c _) => Ok (JStr (String c EmptyString))
  | JStr EmptyString => Raise IndexError
  | JDict _ => Raise (KeyError (JInt 0))
  | _ => Raise TypeError
  end.

(** [v[k] = x] for a string [k]; the result is [v] after the assignment. *)
Definition setitem (v : json) (k : string) (x : json) : result json :=
  match v with
  | JDict d => Ok (JDict (Dict.set d k x))
  | _ => Raise TypeError
  end.

(** [v.items()]. *)
Definition items (v : json) : result dict :=
  match v with
  | JDict d => Ok d
  | _ => Raise AttributeError
  end.

Fixpoint chars (s : string) : list json :=
  match s with
  | EmptyString => []
  | String c rest => JStr (String c EmptyString) :: chars rest
  end.

(** [for x in v]. *)
Definition iter (v : json) : result (list json) :=
  match v with
  | JList l => Ok l
  | JDict d => Ok (map (fun kv => JStr (fst kv)) d)
  | JStr s => Ok (chars s)
  | _ => Raise TypeError
  end.

(** ** Row flattener *)

(** The f-string [f"{key}_{sub_key}"] on string keys. *)
Definition compound (key sub_key : string) : string := key ++ "_" ++ sub_key.

Module Current.
(** [transform_current_weather_data], lines 129-135: the inner loop over
    [value.items()] and the outer loop over [data_dict.items()]. *)
Fixpoint flatten_sub (key : string) (value : dict) (flattened_data : dict) : dict :=
  match value with
  | [] => flattened_data
  | (sub_key, sub_value) :: rest =>
      flatten_sub key rest (Dict.set flattened_data (compound key sub_key) sub_value)
  end.

Fixpoint flatten_items (its : dict) (flattened_data : dict) : dict :=
  match its with
  | [] => flattened_data
  | (key, value) :: rest =>
      match value with
      | JDict sub => flatten_items rest (flatten_sub key sub flattened_data)
      | _ => flatten_items rest (Dict.set flattened_data key value)
      end
  end.

Definition flattened_data (data_dict : dict) : dict := flatten_items data_dict [].
End Current.

Module Convert.
(** [convert_weather_api_dict_to_dataframe], lines 157-163. *)
Fixpoint extract_sub (key : string) (value : dict) (extracted_data : dict) : dict :=
  match value with
  | [] => extracted_data
  | (sub_key, sub_value) :: rest =>
      extract_sub key rest (Dict.set extracted_data (compound key sub_key) sub_value)
  end.

Fixpoint extract_items (its : dict) (extracted_data : dict) : dict :=
  match its with
  | [] => extracted_data
  | (key, value) :: rest =>
      match as_dict value with
      | Some sub => extract_items rest (extract_sub key sub extracted_data)
      | None => extract_items rest (Dict.set extracted_data key value)
      end
  end.

Definition extracted_data (data_dict : dict) : dict := extract_items data_dict [].
End Convert.

(** ** Timestamps

    [pd.to_datetime(..., unit='s')] turns whole seconds since 1970-01-01T00:00:00
    UTC into a naive UTC timestamp held in 64-bit nanoseconds, and
    [.dt.strftime('%Y-%m-%d %H:%M:%S')] prints it. *)

Open Scope Z_scope.

Record Timestamp : Type := mkTimestamp {
  year : Z; month : Z; day : Z; hour : Z; minute : Z; second : Z
}.

(** Days since 1970-01-01 to the proleptic Gregorian (year, month, day). *)
Definition civil_from_days (days : Z) : Z * Z * Z :=
  let z := days + 719468 in
  let era := z / 146097 in
  let doe := z - era * 146097 in
  let yoe := (doe - doe / 1460 + doe / 36524 - doe / 146096) / 365 in
  let doy := doe - (365 * yoe + yoe / 4 - yoe / 100) in
  let mp := (5 * doy + 2) / 153 in
  let d := doy - (153 * mp + 2) / 5 + 1 in
  let m := if mp <? 10 then mp + 3 else mp - 9 in
  let y := yoe + era * 400 in
  (if m <=? 2 then y + 1 else y, m, d).

Definition Timestamp_of_seconds (t : Z) : Timestamp :=
  let sod := t mod 86400 in
  match civil_from_days (t / 86400) with
  | (y, m, d) => mkTimestamp y m d (sod / 3600) (sod mod 3600 / 60) (sod mod 60)
  end.

(** The nanosecond representation: [t * 10^9] has to fit a signed 64-bit
    integer whose least value is reserved for [NaT]. *)
Definition ns_max : Z := 9223372036854775807.

Definition in_bounds (t : Z) : bool :=
  (- ns_max <=? t * 1000000000) && (t * 1000000000 <=? ns_max).

Definition digits (n : Z) : string := NilZero.string_of_int (Z.to_int n).

(** [%m], [%d], [%H], [%M], [%S]: two digits, zero padded. *)
Definition pad2 (n : Z) : string :=
  if n <? 10 then "0" ++ digits n else digits n.

(** [%Y]: four digits, zero padded. *)
Definition pad4 (n : Z) : string :=
  if n <? 10 then "000" ++ digits n
  else if n <? 100 then "00" ++ digits n
  else if n <? 1000 then "0" ++ digits n
  else digits n.

Definition strftime (ts : Timestamp) : string :=
  pad4 (year ts) ++ "-" ++ pad2 (month ts) ++ "-" ++ pad2 (day ts) ++ " "
  ++ pad2 (hour ts) ++ ":" ++ pad2 (minute ts) ++ ":" ++ pad2 (second ts).

(** The Gregorian calendar stated on its own, to compare [civil_from_days]
    with: leap years, month lengths and the day after a date. *)
Definition is_leap (y : Z) : bool :=
  (y mod 4 =? 0) && (negb (y mod 100 =? 0) || (y mod 400 =? 0)).

Definition days_in_month (y m : Z) : Z :=
  if m =? 2 then (if is_leap y then 29 else 28)
  else if (m =? 4) || (m =? 6) || (m =? 9) || (m =? 11) then 30
  else 31.

Definition next_day (ymd : Z * Z * Z) : Z * Z * Z :=
  match ymd with
  | (y, m, d) =>
      if d <? days_in_month y m then (y, m, d + 1)
      else if m <? 12 then (y, m + 1, 1)
      else (y + 1, 1, 1)
  end.

Definition ymd_eqb (a b : Z * Z * Z) : bool :=
  match a, b with
  | (y, m, d), (y', m', d') => (y =? y') && (m =? m') && (d =? d')
  end.

(** [civil_from_days] steps like the calendar on the [n] days from [lo]. *)
Fixpoint steps_like_calendar (lo : Z) (n : nat) : bool :=
  match n with
  | O => true
  | S n' =>
      ymd_eqb (civil_from_days (lo + 1)) (next_day (civil_from_days lo))
      && steps_like_calendar (lo + 1) n'
  end.

Close Scope Z_scope.

(** ** Tables

    A [pd.DataFrame] as its column labels and its rows; the row index is not
    modelled, nothing here reads it. *)

Inductive cell : Type :=
| CVal (v : json)
| CNaN
| CTimestamp (ts : Timestamp)
| CNaT.

Record DataFrame : Type := mkDataFrame {
  columns : list string;
  rows : list (list cell)
}.

(** [pd.DataFrame()]. *)
Definition DataFrame_empty : DataFrame := mkDataFrame [] [].

(** [pd.DataFrame([record])]: one row, one column per key. *)
Definition DataFrame_of_record (record : dict) : DataFrame :=
  mkDataFrame (map fst record) [map (fun kv => CVal (snd kv)) record].

(** The cell of a row under a column label. *)
Fixpoint row_get (cols : list string) (row : list cell) (c : string) : option cell :=
  match cols, row with
  | c' :: cols', x :: row' => if String.eqb c' c then Some x else row_get cols' row' c
  | _, _ => None
  end.

(** The cell of row [i] under column [c]. *)
Definition df_cell (df : DataFrame) (i : nat) (c : string) : option cell :=
  match nth_error (rows df) i with
  | Some row => row_get (columns df) row c
  | None => None
  end.

(** A row laid out on other columns; a column it lacks is [NaN]. *)
Definition reindex (cols' cols : list string) (row : list cell) : list cell :=
  map (fun c => match row_get cols row c with Some x => x | None => CNaN end) cols'.

(** [pd.concat([a, b])]: the union of the columns in order of appearance, the
    rows of [a] then those of [b]. *)
Definition concat (a b : DataFrame) : DataFrame :=
  let cols := columns a ++ filter (fun c => negb (mem c (columns a))) (columns b) in
  mkDataFrame cols
    (map (reindex cols (columns a)) (rows a) ++ map (reindex cols (columns b)) (rows b)).

(** [left.merge(right, how='cross')]: every row of [left] with every row of
    [right]; a label both sides have gets the suffixes [_x] and [_y], and
    suffixed labels that clash with another column are refused. *)
Definition suffixed (shared : list string) (suffix : string) (c : string) : string :=
  if mem c shared then c ++ suffix else c.

Definition merge_cross (left right : DataFrame) : result DataFrame :=
  let shared := filter (fun c => mem c (columns right)) (columns left) in
  let cols := map (suffixed shared "_x") (columns left)
              ++ map (suffixed shared "_y") (columns right) in
  if nodupb cols then
    Ok (mkDataFrame cols
          (flat_map (fun l => map (fun r => l ++ r) (rows right)) (rows left)))
  else Raise MergeError.

(** [df[c]]: a column as the list of its cells. *)
Definition column (df : DataFrame) (c : string) : list cell :=
  map (fun row => match row_get (columns df) row c with Some x => x | None => CNaN end)
      (rows df).

Fixpoint row_set (cols : list string) (row : list cell) (c : string) (x : cell) : list cell :=
  match cols, row with
  | c' :: cols', y :: row' =>
      if String.eqb c' c then x :: row' else y :: row_set cols' row' c x
  | _, _ => [x]
  end.

(** [df[c] = values]: an existing column is overwritten where it stands, a new
    one is added last. *)
Definition set_column (df : DataFrame) (c : string) (values : list cell) : DataFrame :=
  mkDataFrame
    (if mem c (columns df) then columns df else columns df ++ [c])
    (map (fun rv => row_set (columns df) (fst rv) c (snd rv)) (combine (rows df) values)).

Fixpoint rmap {A B} (f : A -> result B) (l : list A) : result (list B) :=
  match l with
  | [] => Ok []
  | x :: rest =>
      match f x with
      | Raise e => Raise e
      | Ok y => match rmap f rest with Raise e => Raise e | Ok ys => Ok (y :: ys) end
      end
  end.

(** [series.dt.strftime(fmt)] on one cell of a datetime column. *)
Definition strftime_cell (c : cell) : result cell :=
  match c with
  | CTimestamp ts => Ok (CVal (JStr (strftime ts)))
  | CNaT => Ok CNaN
  | _ => Raise AttributeError
  end.

Notation "'let?' x := r 'in' k" := (rbind r (fun x => k))
  (at level 10, x name, r at level 100, k at level 200).

(** ** The outside of a run

    What the run is given from outside: settings, the provider, the warehouse
    client and the library calls that are not computed here.  A call that talks
    to the outside may answer differently each time, so it sees the run's
    history. *)

(** The values read from [settings]; [settings.py] is not among the sources,
    so they are parameters of the run. *)
Record Settings : Type := mkSettings {
  LOCAL_RUNNING : bool;
  API_KEY : string;
  GCP_PROJECT_ID : string;
  DATASET_ID : string
}.

(** [requests.Response]: what [raise_for_status()] and [json()] do on it. *)
Record response : Type := mkResponse {
  raise_for_status : result unit;
  json_body : result json
}.

(** [bigquery.LoadJobConfig]. *)
Record LoadJobConfig : Type := mkLoadJobConfig {
  autodetect : bool;
  write_disposition : string;
  create_disposition : string
}.

(** What [print] is given. *)
Inductive printed : Type :=
| PStr (s : string)
| PFetchError (location_name : string) (e : exn)
| PCreatedDataset (dataset_id : string)
| PDtypes (df : DataFrame)
| PJobConfig (c : LoadJobConfig)
| PExn (e : exn).

(** The calls of a run that leave the process, each with its outcome. *)
Inductive event : Type :=
| EvGet (url : string) (r : result response)
| EvPrint (p : printed)
| EvSetEnv (name value : string)
| EvClient (r : result unit)
| EvCreateDataset (dataset_id : string) (r : result unit)
| EvLoad (df : DataFrame) (table_id : string) (c : LoadJobConfig) (r : result unit)
| EvJobResult (table_id : string) (r : result unit).

Definition trace : Type := list event.

Record World : Type := mkWorld {
  requests_get : trace -> string -> result response;
  json_loads : string -> result json;
  (** [pd.to_datetime(unit='s')] on a cell that is not an integer *)
  to_datetime_other : cell -> result cell;
  new_Client : trace -> result unit;
  new_Dataset : string -> result unit;
  create_dataset : trace -> string -> result unit;
  load_table_from_dataframe : trace -> DataFrame -> string -> LoadJobConfig -> result unit;
  job_result : trace -> string -> result unit
}.

(** ** Current-weather transformer *)

(** [pd.to_datetime(cell, unit='s')]: an integer inside the bounds becomes a
    timestamp, one outside raises; other cells are left to the library. *)
Definition to_datetime_s (w : World) (c : cell) : result cell :=
  match c with
  | CVal (JInt t) =>
      if in_bounds t then Ok (CTimestamp (Timestamp_of_seconds t))
      else Raise OutOfBoundsDatetime
  | _ => to_datetime_other w c
  end.

Definition transform_current_weather_data (w : World) (data_dict : json)
  : result DataFrame :=
  let? its := items data_dict in
  let flattened_data := Current.flatten_items its [] in
  let data_df := DataFrame_of_record flattened_data in
  if mem "dt" (columns data_df) then
    let? stamps := rmap (to_datetime_s w) (column data_df "dt") in
    let data_df := set_column data_df "dt_txt" stamps in
    let? texts := rmap strftime_cell (column data_df "dt_txt") in
    Ok (set_column data_df "dt_txt" texts)
  else Ok data_df.

(** ** Forecast transformer *)

Definition convert_weather_api_dict_to_dataframe (data_dict : json) : result DataFrame :=
  let? its := items data_dict in
  Ok (DataFrame_of_record (Convert.extract_items its [])).

(** [forecast_item['weather'] = forecast_item['weather'][0]]; the result is the
    item after the assignment. *)
Definition take_first_weather (forecast_item : json) : result json :=
  let? weather := getitem forecast_item "weather" in
  let? first := getitem0 weather in
  setitem forecast_item "weather" first.

(** The loop over [forecasts_dict].  The items are objects of the caller's
    record, so the second component is what the caller finds in their place
    afterwards, also when the loop stops on an exception. *)
Fixpoint forecast_loop (forecasts : list json) (forecast_df : DataFrame)
  : result DataFrame * list json :=
  match forecasts with
  | [] => (Ok forecast_df, [])
  | forecast_item :: rest =>
      match take_first_weather forecast_item with
      | Raise e => (Raise e, forecast_item :: rest)
      | Ok forecast_item' =>
          match convert_weather_api_dict_to_dataframe forecast_item' with
          | Raise e => (Raise e, forecast_item' :: rest)
          | Ok forecast_item_df =>
              let (r, rest') := forecast_loop rest (concat forecast_df forecast_item_df) in
              (r, forecast_item' :: rest')
          end
      end
  end.

(** [data_dict] with the list under ['list'] holding the items as the loop
    left them; only a list holds objects the loop can assign into. *)
Definition after_loop (data_dict forecasts_dict : json) (items' : list json) : json :=
  match data_dict, forecasts_dict with
  | JDict d, JList _ => JDict (Dict.set d "list" (JList items'))
  | _, _ => data_dict
  end.

(** Returns the table (or the exception) and the argument as the call leaves
    it. *)
Definition transform_forecasted_weather_data (data_dict : json)
  : result DataFrame * json :=
  match getitem data_dict "city" with
  | Raise e => (Raise e, data_dict)
  | Ok city_dict =>
      match convert_weather_api_dict_to_dataframe city_dict with
      | Raise e => (Raise e, data_dict)
      | Ok city_df =>
          match getitem data_dict "list" with
          | Raise e => (Raise e, data_dict)
          | Ok forecasts_dict =>
              match iter forecasts_dict with
              | Raise e => (Raise e, data_dict)
              | Ok forecasts =>
                  let (r, forecasts') := forecast_loop forecasts DataFrame_empty in
                  (let? forecast_df := r in merge_cross forecast_df city_df,
                   after_loop data_dict forecasts_dict forecasts')
              end
          end
      end
  end.

(** ** Effects: a run as a function of the history so far *)

Definition M (A : Type) : Type := trace -> result A * trace.

Definition ret {A} (a : A) : M A := fun tr => (Ok a, tr).

Definition bind {A B} (m : M A) (f : A -> M B) : M B :=
  fun tr => match m tr with
            | (Ok a, tr') => f a tr'
            | (Raise e, tr') => (Raise e, tr')
            end.

Definition lift {A} (r : result A) : M A := fun tr => (r, tr).

Definition emit (ev : event) : M unit := fun tr => (Ok tt, tr ++ [ev]).

Definition print (p : printed) : M unit := emit (EvPrint p).

(** A call that leaves the process: its outcome is decided outside, from the
    history so far, and recorded. *)
Definition call {A} (f : trace -> result A) (ev : result A -> event) : M A :=
  fun tr => let r := f tr in (r, tr ++ [ev r]).

(** [try: body  except <class> as e: handler e]. *)
Definition try_except {A} (body : M A) (class : exn -> bool) (handler : exn -> M A) : M A :=
  fun tr => match body tr with
            | (Raise e, tr') => if class e then handler e tr' else (Raise e, tr')
            | done => done
            end.

Notation "x <- m ;; k" := (bind m (fun x => k))
  (at level 61, m at next level, right associativity).
Notation "m ;; k" := (bind m (fun _ => k))
  (at level 61, right associativity).

(** ** Weather fetcher *)

Definition fetch_api_data (w : World) (url : string) : M json :=
  response <- call (fun tr => requests_get w tr url) (EvGet url) ;;
  lift (raise_for_status response) ;;
  lift (json_body response).

(** Modelled from the spec: the Location Registry ([locations.py] is not among
    the sources), a mapping from location name to latitude and longitude. *)
Inductive number : Type :=
| NInt (z : Z)
| NFloat (repr : string).

Record location : Type := mkLocation { lat : number; lon : number }.

(** [f"{x}"] on a number. *)
Definition format_number (x : number) : string :=
  match x with NInt z => digits z | NFloat repr => repr end.

Definition base_url : string := "https://api.openweathermap.org/data/2.5/".

Definition current_url (l : location) (api_key : string) : string :=
  base_url ++ "weather?lat=" ++ format_number (lat l) ++ "&lon=" ++ format_number (lon l)
  ++ "&appid=" ++ api_key ++ "&units=metric".

Definition forecast_url (l : location) (api_key : string) : string :=
  base_url ++ "forecast?lat=" ++ format_number (lat l) ++ "&lon=" ++ format_number (lon l)
  ++ "&appid=" ++ api_key ++ "&units=metric".

(** [weather_data = {"current": {}, "forecast": {}}]. *)
Record weather_data : Type := mkWeatherData {
  current : list (string * json);
  forecast : list (string * json)
}.

(** One turn of the loop, lines 100-108.  The two assignments write into
    [weather_data] as they run, so the handler continues from the dict as the
    exception found it. *)
Definition fetch_location (w : World) (api_key : string) (wd : weather_data)
    (location_name : string) (l : location) : M weather_data :=
  fun tr =>
    let except e wd' tr' :=
      if is_RequestException e
      then (print (PFetchError location_name e) ;; ret wd') tr'
      else (Raise e, tr') in
    match fetch_api_data w (current_url l api_key) tr with
    | (Raise e, tr1) => except e wd tr1
    | (Ok cur, tr1) =>
        let wd1 := mkWeatherData (Dict.set (current wd) location_name cur) (forecast wd) in
        match fetch_api_data w (forecast_url l api_key) tr1 with
        | (Raise e, tr2) => except e wd1 tr2
        | (Ok fc, tr2) =>
            (Ok (mkWeatherData (current wd1) (Dict.set (forecast wd1) location_name fc)), tr2)
        end
    end.

Fixpoint fetch_locations (w : World) (api_key : string)
    (locations : list (string * location)) (wd : weather_data) : M weather_data :=
  match locations with
  | [] => ret wd
  | (location_name, l) :: rest =>
      wd' <- fetch_location w api_key wd location_name l ;;
      fetch_locations w api_key rest wd'
  end.

Definition get_weather_data (w : World) (locations : list (string * location))
    (api_key : string) : M weather_data :=
  wd <- fetch_locations w api_key locations (mkWeatherData [] []) ;;
  print (PStr "Weather Data for all locations have been fetched...") ;;
  ret wd.

(** ** Table writer *)

Definition job_config : LoadJobConfig :=
  mkLoadJobConfig true "WRITE_TRUNCATE" "CREATE_IF_NEEDED".

Definition any_exception (e : exn) : bool := true.

(** Lines 22-37: the client, the dataset object and the attempt to create the
    dataset, whose every failure is taken for [already exists].  Returns the
    qualified dataset id. *)
Definition ensure_dataset (w : World) (s : Settings) (project_id dataset_id : string)
  : M string :=
  (if LOCAL_RUNNING s
   then emit (EvSetEnv "GOOGLE_APPLICATION_CREDENTIALS" "service_account.json")
   else ret tt) ;;
  call (new_Client w) EvClient ;;
  let dataset_id := (project_id ++ "." ++ dataset_id)%string in
  lift (new_Dataset w dataset_id) ;;
  try_except
    (call (fun tr => create_dataset w tr dataset_id) (EvCreateDataset dataset_id) ;;
     print (PCreatedDataset dataset_id))
    any_exception
    (fun _ => print (PStr "Dataset already exists")) ;;
  ret dataset_id.

(** Lines 55-64: the load job, waited for, and the handler that logs and
    raises again. *)
Definition load_dataframe (w : World) (dataframe : DataFrame) (table_id : string)
  : M unit :=
  try_except
    (call (fun tr => load_table_from_dataframe w tr dataframe table_id job_config)
          (EvLoad dataframe table_id job_config) ;;
     call (fun tr => job_result w tr table_id) (EvJobResult table_id) ;;
     print (PStr "Saved data into BigQuery"))
    is_Exception
    (fun e =>
       print (PDtypes dataframe) ;;
       print (PStr table_id) ;;
       print (PJobConfig job_config) ;;
       print (PExn e) ;;
       lift (Raise e)).

Definition upload_df_to_bigquery (w : World) (s : Settings) (dataframe : DataFrame)
    (project_id dataset_id table_name : string) : M unit :=
  dataset_id <- ensure_dataset w s project_id dataset_id ;;
  let table_id := (dataset_id ++ "." ++ table_name)%string in
  print (PStr "Created a BigQuery job_config variable") ;;
  load_dataframe w dataframe table_id.

(** ** Orchestrator *)

(** The inbound payload: an object with a [get_json] accessor, given by what
    the accessor does, or a raw string. *)
Inductive request : Type :=
| RequestObject (get_json : result json)
| RawPayload (s : string).

(** Lines 195-198: any failure of [request.get_json()] falls back to
    [json.loads(request)], which takes a string only. *)
Definition request_body (w : World) (r : request) : result json :=
  match r with
  | RequestObject (Ok body) => Ok body
  | RequestObject (Raise _) => Raise TypeError
  | RawPayload s => json_loads w s
  end.

Fixpoint current_tables (w : World) (values : list (string * json))
    (current_weather : DataFrame) : result DataFrame :=
  match values with
  | [] => Ok current_weather
  | (_, value) :: rest =>
      let? df := transform_current_weather_data w value in
      current_tables w rest (concat current_weather df)
  end.

Fixpoint forecast_tables (values : list (string * json))
    (forecast_weather : DataFrame) : result DataFrame :=
  match values with
  | [] => Ok forecast_weather
  | (_, value) :: rest =>
      let? df := fst (transform_forecasted_weather_data value) in
      forecast_tables rest (concat forecast_weather df)
  end.

Definition main (w : World) (s : Settings) (locations_dict : list (string * location))
    (r : request) : M string :=
  lift (request_body w r) ;;
  data <- get_weather_data w locations_dict (API_KEY s) ;;
  current_weather <- lift (current_tables w (current data) DataFrame_empty) ;;
  forecast_weather <- lift (forecast_tables (forecast data) DataFrame_empty) ;;
  upload_df_to_bigquery w s current_weather (GCP_PROJECT_ID s) (DATASET_ID s) "current_weather" ;;
  upload_df_to_bigquery w s forecast_weather (GCP_PROJECT_ID s) (DATASET_ID s) "forecasted_weather" ;;
  ret "200, Success".

(** ** Notions the statements below are written with *)

(** The assignments the flattening loops perform, in order. *)
Definition assignments (data_dict : dict) : dict :=
  flat_map (fun kv =>
              match kv with
              | (key, JDict sub) => map (fun sv => (compound key (fst sv), snd sv)) sub
              | (key, value) => [(key, value)]
              end) data_dict.

(** The column names the flattening generates. *)
Definition generated_names (data_dict : dict) : list string :=
  map fst (assignments data_dict).

(** The cell of row [i] under [c], [NaN] where the table has none. *)
Definition val (df : DataFrame) (i : nat) (c : string) : cell :=
  match df_cell df i c with Some x => x | None => CNaN end.

(** An interval whose ['weather'] is a non-empty list. *)
Definition has_weather_list (forecast_item : json) : bool :=
  match forecast_item with
  | JDict it =>
      match Dict.get it "weather" with
      | Some (JList (_ :: _)) => true
      | _ => false
      end
  | _ => false
  end.

(** An interval after line 185, where that line succeeds. *)
Definition with_first_weather (forecast_item : json) : json :=
  match take_first_weather forecast_item with
  | Ok forecast_item' => forecast_item'
  | Raise _ => forecast_item
  end.

(** The flattened fields of an interval, its ['weather'] replaced first. *)
Definition interval_fields (forecast_item : json) : dict :=
  match with_first_weather forecast_item with
  | JDict it => Convert.extracted_data it
  | _ => []
  end.

Definition disjoint (l1 l2 : list string) : bool :=
  forallb (fun c => negb (mem c l2)) l1.

(** The number of constructors of a value. *)
Fixpoint jsize (v : json) : nat :=
  match v with
  | JList l => S (list_sum (map jsize l))
  | JDict d => S (list_sum (map (fun kv => match kv with (_, x) => jsize x end) d))
  | _ => 1
  end.

(** Events of the fetch phase: requests to the provider and log lines. *)
Definition fetch_event (ev : event) : Prop :=
  match ev with
  | EvGet _ _ | EvPrint _ => True
  | _ => False
  end.

(** Events of writing the table [table_id]: no request to the provider, and no
    load job or wait on another table. *)
Definition write_event (table_id : string) (ev : event) : Prop :=
  match ev with
  | EvGet _ _ => False
  | EvLoad _ t _ _ => t = table_id
  | EvJobResult t _ => t = table_id
  | _ => True
  end.

Definition table_id_of (s : Settings) (table_name : string) : string :=
  (GCP_PROJECT_ID s ++ "." ++ DATASET_ID s) ++ "." ++ table_name.

(** Running a list of assignments on a dict. *)
Definition assign_all (es acc : dict) : dict :=
  fold_left (fun acc e => Dict.set acc (fst e) (snd e)) es acc.

(** The stages of [civil_from_days]: the 400-year era of a day, the day of the
    era, the year of the era, the first day of a year of the era, and the date
    of a day of a year that starts on 1 March. *)
Open Scope Z_scope.

Definition era_of (n : Z) : Z := (n + 719468) / 146097.

Definition doe_of (n : Z) : Z := n + 719468 - era_of n * 146097.

Definition yoe_of (doe : Z) : Z :=
  (doe - doe / 1460 + doe / 36524 - doe / 146096) / 365.

Definition ystart (y : Z) : Z := 365 * y + y / 4 - y / 100.

Definition ymd_of (era yoe doy : Z) : Z * Z * Z :=
  let mp := (5 * doy + 2) / 153 in
  let d := doy - (153 * mp + 2) / 5 + 1 in
  let m := if mp <? 10 then mp + 3 else mp - 9 in
  let y := yoe + era * 400 in
  (if m <=? 2 then y + 1 else y, m, d).

(** 1 when the year [yoe] of an era, counted from 1 March, ends on a
    29 February. *)
Definition leap_end (yoe : Z) : Z :=
  if ((yoe + 1) mod 4 =? 0)
     && (negb ((yoe + 1) mod 100 =? 0) || ((yoe + 1) mod 400 =? 0))
  then 1 else 0.

Close Scope Z_scope.

(** The columns a column assignment leaves. *)
Definition columns_with (cols : list string) (c : string) : list string :=
  if mem c cols then cols else cols ++ [c].

(** A table whose column labels are distinct and whose rows have one cell
    per column. *)
Definition shaped (df : DataFrame) : Prop :=
  NoDup (columns df)
  /\ Forall (fun row => List.length row = List.length (columns df)) (rows df).

(** What the loop of the forecast transformer accumulates from intervals
    whose line 185 succeeds. *)
Definition interval_table (forecasts : list json) (forecast_df : DataFrame) : DataFrame :=
  fold_left (fun df it => concat df (DataFrame_of_record (interval_fields it)))
            forecasts forecast_df.

(** ** Sample inputs *)

(** The record of the specification's example. *)
Definition sample_current : dict :=
  [("dt", JInt 1700000000); ("main", JDict [("temp", JInt 15)])].

(** Two entries that generate the name [a_b_c], and a nested key [a_b] that
    another entry generates. *)
Definition colliding : dict :=
  [("a", JDict [("b", JInt 1); ("b_c", JInt 3)]); ("a_b", JDict [("c", JInt 2)])].

(** A doubly nested dict under [a], [b], and a scalar under [a_b]. *)
Definition doubly_nested : dict :=
  [("a", JDict [("b", JDict [("x", JInt 1)])]); ("a_b", JInt 5)].

Definition doubly_nested_alone : dict :=
  [("a", JDict [("b", JDict [("x", JInt 1)])])].

(** A provider and a warehouse where every call succeeds; the provider
    answers every request with the same small record. *)
Definition obliging_world : World :=
  mkWorld
    (fun _ _ =>
       Ok (mkResponse (Ok tt)
             (Ok (JDict [("dt", JInt 1700000000);
                         ("city", JDict [("name", JStr "Paris")]);
                         ("list", JList [])]))))
    (fun _ => Ok (JDict []))
    (fun _ => Raise TypeError)
    (fun _ => Ok tt)
    (fun _ => Ok tt)
    (fun _ _ => Ok tt)
    (fun _ _ _ _ => Ok tt)
    (fun _ _ => Ok tt).

(** A record whose timestamp is in the year 33658. *)
Definition far_future : dict := [("dt", JInt 1000000000000)].

(** A forecast record whose interval and city both have a field [id]. *)
Definition clashing_forecast : dict :=
  [("city", JDict [("id", JInt 1)]);
   ("list", JList [JDict [("weather", JList [JDict [("main", JStr "Rain")]]);
                          ("id", JInt 7)]])].

(** A forecast record with two intervals of different fields. *)
Definition sample_forecast : dict :=
  [("city", JDict [("name", JStr "Paris"); ("coord", JDict [("lat", JFloat "48.85")])]);
   ("list", JList [JDict [("dt", JInt 1700000000);
                          ("weather", JList [JDict [("main", JStr "Rain")]]);
                          ("pop", JFloat "0.2")];
                   JDict [("dt", JInt 1700010800);
                          ("weather", JList [JDict [("main", JStr "Clear")]]);
                          ("rain", JDict [("3h", JFloat "0.4")])]])].

Definition paris : list (string * location) :=
  [("Paris", mkLocation (NFloat "48.85") (NFloat "2.35"))].

Definition sample_settings : Settings := mkSettings false "KEY" "project" "weather".

(** A provider whose forecast endpoint answers with a server error while its
    current-weather endpoint works. *)
Definition forecast_down_world : World :=
  mkWorld
    (fun _ url =>
       if String.prefix (base_url ++ "forecast") url
       then Ok (mkResponse (Raise (HTTPError "500 Server Error")) (Ok JNull))
       else Ok (mkResponse (Ok tt) (Ok (JDict [("dt", JInt 1700000000)]))))
    (fun _ => Ok (JDict []))
    (fun _ => Raise TypeError)
    (fun _ => Ok tt)
    (fun _ => Ok tt)
    (fun _ _ => Ok tt)
    (fun _ _ _ _ => Ok tt)
    (fun _ _ => Ok tt).

(** A warehouse that refuses every load job. *)
Definition load_refusing_world : World :=
  mkWorld
    (fun _ _ => Ok (mkResponse (Ok tt) (Ok (JDict []))))
    (fun _ => Ok (JDict []))
    (fun _ => Raise TypeError)
    (fun _ => Ok tt)
    (fun _ => Ok tt)
    (fun _ _ => Ok tt)
    (fun _ _ _ _ => Raise (OtherException "BadRequest"))
    (fun _ _ => Ok tt).

(** ** Further notions *)

(** The names of a list in the order of their first occurrence, those of
    [seen] left out: the order in which assignments create the keys of a
    dict. *)
Fixpoint fresh_names (seen names : list string) : list string :=
  match names with
  | [] => []
  | n :: rest =>
      if mem n seen then fresh_names seen rest
      else n :: fresh_names (seen ++ [n]) rest
  end.

Fixpoint has_underscore (s : string) : bool :=
  match s with
  | EmptyString => false
  | String c rest => Ascii.eqb c "_" || has_underscore rest
  end.

Definition is_get (ev : event) : bool :=
  match ev with EvGet _ _ => true | _ => false end.

Definition is_load (ev : event) : bool :=
  match ev with EvLoad _ _ _ _ => true | _ => false end.

(** The number of requests to the provider among some events. *)
Definition count_gets (evs : trace) : nat := List.length (filter is_get evs).

(** Among [evs], a request of [url] was answered with a success status and
    the JSON [body]. *)
Definition fetched_ok (url : string) (body : json) (evs : trace) : Prop :=
  exists resp,
    In (EvGet url (Ok resp)) evs
    /\ raise_for_status resp = Ok tt
    /\ json_body resp = Ok body.

(** A provider that answers every request, at every moment, with a success
    status and a JSON body. *)
Definition responsive (w : World) : Prop :=
  forall tr url,
    exists resp body,
      requests_get w tr url = Ok resp
      /\ raise_for_status resp = Ok tt
      /\ json_body resp = Ok body.


(** The number of turns of the loop of the forecast transformer on a
    record. *)
Definition interval_count (data_dict : json) : nat :=
  match rbind (getitem data_dict "list") iter with
  | Ok forecasts => List.length forecasts
  | Raise _ => 0
  end.

(** A load event is the one job of a write: of that table, with that frame
    and the replacing configuration. *)
Definition load_of (dataframe : DataFrame) (table_id : string) (ev : event) : Prop :=
  match ev with
  | EvLoad df t c _ => df = dataframe /\ t = table_id /\ c = job_config
  | _ => True
  end.

(** A forecast record whose second interval has no ['weather']. *)
Definition broken_forecast : dict :=
  [("city", JDict [("name", JStr "Paris")]);
   ("list", JList [JDict [("dt", JInt 1700000000);
                          ("weather", JList [JDict [("main", JStr "Rain")]])];
                   JDict [("dt", JInt 1700010800)];
                   JDict [("dt", JInt 1700021600);
                          ("weather", JList [JDict [("main", JStr "Clear")]])]])].

(** A provider that answers every request with an empty object. *)
Definition empty_reply_world : World :=
  mkWorld
    (fun _ _ => Ok (mkResponse (Ok tt) (Ok (JDict []))))
    (fun _ => Ok (JDict []))
    (fun _ => Raise TypeError)
    (fun _ => Ok tt)
    (fun _ => Ok tt)
    (fun _ _ => Ok tt)
    (fun _ _ _ _ => Ok tt)
    (fun _ _ => Ok tt).

(** A warehouse whose dataset creation is interrupted and whose load job is
    interrupted when waited for. *)
Definition interrupted_world : World :=
  mkWorld
    (fun _ _ => Ok (mkResponse (Ok tt) (Ok (JDict []))))
    (fun _ => Ok (JDict []))
    (fun _ => Raise TypeError)
    (fun _ => Ok tt)
    (fun _ => Ok tt)
    (fun _ _ => Raise KeyboardInterrupt)
    (fun _ _ _ _ => Ok tt)
    (fun _ _ => Raise KeyboardInterrupt).

(** A provider whose body is not JSON: [response.json()] raises a
    [ValueError]. *)
Definition garbled_world : World :=
  mkWorld
    (fun _ _ => Ok (mkResponse (Ok tt) (Raise (ValueError "Expecting value"))))
    (fun _ => Ok (JDict []))
    (fun _ => Raise TypeError)
    (fun _ => Ok tt)
    (fun _ => Ok tt)
    (fun _ _ => Ok tt)
    (fun _ _ _ _ => Ok tt)
    (fun _ _ => Ok tt).

(** * Properties *)

(** ** Dicts *)

Lemma mem_In k l : mem k l = true <-> In k l.
Proof.
  unfold mem. rewrite existsb_exists. split.
  - intros (x & Hx & E). apply String.eqb_eq in E. now subst.
  - intros H. exists k. split; [assumption|apply String.eqb_refl].
Qed.

Lemma mem_false k l : mem k l = false <-> ~ In k l.
Proof.
  rewrite <- mem_In. destruct (mem k l); split; congruence.
Qed.

Lemma nodupb_NoDup l : nodupb l = true <-> NoDup l.
Proof.
  induction l as [|x l IH]; simpl.
  - split; [constructor|reflexivity].
  - rewrite andb_true_iff, negb_true_iff, mem_false, IH. split.
    + intros [H1 H2]. now constructor.
    + intros H. inversion H; subst. now split.
Qed.

Section DictFacts.
Context {A : Type}.
Implicit Types (d : list (string * A)) (k : string) (v : A).

Lemma get_set_eq d k v : Dict.get (Dict.set d k v) k = Some v.
Proof.
  induction d as [|[k' v'] d IH]; simpl.
  - now rewrite String.eqb_refl.
  - destruct (String.eqb k' k) eqn:E; simpl; rewrite E; auto.
Qed.

Lemma get_set_neq d k k' v : k <> k' -> Dict.get (Dict.set d k v) k' = Dict.get d k'.
Proof.
  intros N. induction d as [|[k0 v0] d IH]; simpl.
  - apply String.eqb_neq in N. now rewrite N.
  - destruct (String.eqb k0 k) eqn:E; simpl.
    + apply String.eqb_eq in E. subst k0.
      apply String.eqb_neq in N. now rewrite N.
    + now rewrite IH.
Qed.

Lemma get_None d k : Dict.get d k = None <-> ~ In k (Dict.keys d).
Proof.
  induction d as [|[k' v'] d IH]; simpl.
  - tauto.
  - destruct (String.eqb_spec k' k); split; try congruence; tauto.
Qed.

Lemma get_In d k v : Dict.get d k = Some v -> In (k, v) d.
Proof.
  induction d as [|[k' v'] d IH]; simpl; [discriminate|].
  destruct (String.eqb_spec k' k); intros H.
  - left. congruence.
  - right. auto.
Qed.

Lemma get_keys d k v : Dict.get d k = Some v -> In k (Dict.keys d).
Proof. intros H. apply get_In in H. now apply (in_map fst) in H. Qed.

(** A name that is bound to one value only is looked up to that value. *)
Lemma In_get d k v :
  In (k, v) d -> (forall v', In (k, v') d -> v' = v) -> Dict.get d k = Some v.
Proof.
  induction d as [|[k' v'] d IH]; simpl; [tauto|].
  intros Hin Huniq. destruct (String.eqb_spec k' k) as [->|N].
  - f_equal. apply Huniq. now left.
  - apply IH.
    + destruct Hin as [E|Hin]; [congruence|assumption].
    + intros v0 H0. apply Huniq. now right.
Qed.

Lemma In_get_NoDup d k v :
  NoDup (Dict.keys d) -> In (k, v) d -> Dict.get d k = Some v.
Proof.
  induction d as [|[k' v'] d IH]; simpl; [tauto|].
  intros ND Hin. inversion ND as [|? ? Hnotin ND']; subst.
  destruct Hin as [E|Hin].
  - inversion E; subst. now rewrite String.eqb_refl.
  - destruct (String.eqb_spec k' k) as [->|N]; [|auto].
    exfalso. apply Hnotin. now apply (in_map fst) in Hin.
Qed.

Lemma keys_set d k v :
  Dict.keys (Dict.set d k v) = if mem k (Dict.keys d) then Dict.keys d else Dict.keys d ++ [k].
Proof.
  induction d as [|[k' v'] d IH]; simpl; [reflexivity|].
  rewrite (String.eqb_sym k k').
  destruct (String.eqb k' k) eqn:E; simpl; [reflexivity|].
  fold (mem k (Dict.keys d)). rewrite IH. now destruct (mem k (Dict.keys d)).
Qed.

Lemma set_fresh d k v : ~ In k (Dict.keys d) -> Dict.set d k v = d ++ [(k, v)].
Proof.
  induction d as [|[k' v'] d IH]; simpl; [reflexivity|].
  intros N. destruct (String.eqb_spec k' k) as [->|_]; [tauto|].
  rewrite IH; tauto.
Qed.

Lemma In_keys_set d k v k' :
  In k' (Dict.keys (Dict.set d k v)) <-> In k' (Dict.keys d) \/ k' = k.
Proof.
  rewrite keys_set. destruct (mem k (Dict.keys d)) eqn:E.
  - apply mem_In in E. split; [tauto|]. intros [H| ->]; assumption.
  - rewrite in_app_iff. simpl. intuition.
Qed.

Lemma NoDup_keys_set d k v : NoDup (Dict.keys d) -> NoDup (Dict.keys (Dict.set d k v)).
Proof.
  intros ND. rewrite keys_set. destruct (mem k (Dict.keys d)) eqn:E; [assumption|].
  apply mem_false in E. apply NoDup_app; [assumption|repeat constructor; simpl; tauto|].
  intros x Hx [<-|[]]. contradiction.
Qed.
End DictFacts.

(** ** The flatteners as runs of assignments *)

Lemma extract_sub_assign key sub acc :
  Convert.extract_sub key sub acc
  = assign_all (map (fun sv => (compound key (fst sv), snd sv)) sub) acc.
Proof.
  revert acc. induction sub as [|[sub_key sub_value] sub IH]; intros acc; simpl.
  - reflexivity.
  - apply IH.
Qed.

Lemma assign_all_app es1 es2 acc :
  assign_all (es1 ++ es2) acc = assign_all es2 (assign_all es1 acc).
Proof. apply fold_left_app. Qed.

Lemma extract_items_assign d acc :
  Convert.extract_items d acc = assign_all (assignments d) acc.
Proof.
  revert acc. induction d as [|[key value] d IH]; intros acc; simpl.
  - reflexivity.
  - rewrite assign_all_app.
    destruct value; simpl; rewrite IH; try reflexivity.
    now rewrite extract_sub_assign.
Qed.

Lemma In_keys_assign_all es acc k :
  In k (Dict.keys (assign_all es acc)) <-> In k (Dict.keys acc) \/ In k (map fst es).
Proof.
  revert acc. induction es as [|[k' v'] es IH]; intros acc; simpl.
  - tauto.
  - unfold assign_all in *. simpl. rewrite IH, In_keys_set. simpl. intuition.
Qed.

Lemma NoDup_keys_assign_all es acc :
  NoDup (Dict.keys acc) -> NoDup (Dict.keys (assign_all es acc)).
Proof.
  revert acc. induction es as [|[k' v'] es IH]; intros acc ND; simpl; [assumption|].
  apply IH. now apply NoDup_keys_set.
Qed.

Lemma get_assign_all_other es acc k :
  ~ In k (map fst es) -> Dict.get (assign_all es acc) k = Dict.get acc k.
Proof.
  revert acc. induction es as [|[k' v'] es IH]; intros acc N; simpl in *; [reflexivity|].
  unfold assign_all in *. simpl. rewrite IH by tauto.
  apply get_set_neq. tauto.
Qed.

(** The last assignment to a name decides; when every assignment to it
    carries the same value, that value is found. *)
Lemma get_assign_all es acc k v :
  In (k, v) es -> (forall v', In (k, v') es -> v' = v) ->
  Dict.get (assign_all es acc) k = Some v.
Proof.
  revert acc. induction es as [|[k' v'] es IH]; intros acc Hin Huniq; simpl in *; [tauto|].
  unfold assign_all in *. simpl.
  destruct (in_dec string_dec k (map fst es)) as [Hk|Hk].
  - apply in_map_iff in Hk. destruct Hk as ([k0 v0] & E & H0). simpl in E. subst k0.
    apply IH; [|now auto].
    rewrite <- (Huniq v0); auto.
  - fold (assign_all es (Dict.set acc k' v')). rewrite get_assign_all_other by assumption.
    destruct Hin as [E|Hin].
    + inversion E; subst. apply get_set_eq.
    + exfalso. apply Hk. now apply (in_map fst) in Hin.
Qed.

Lemma NoDup_names_unique (es : dict) k v v' :
  NoDup (map fst es) -> In (k, v) es -> In (k, v') es -> v' = v.
Proof.
  intros ND H H'.
  apply (In_get_NoDup es k v ND) in H. apply (In_get_NoDup es k v' ND) in H'. congruence.
Qed.

Lemma keys_extracted d k :
  In k (Dict.keys (Convert.extracted_data d)) <-> In k (generated_names d).
Proof.
  unfold Convert.extracted_data. rewrite extract_items_assign, In_keys_assign_all.
  simpl. unfold generated_names. tauto.
Qed.

Lemma NoDup_keys_extracted d : NoDup (Dict.keys (Convert.extracted_data d)).
Proof.
  unfold Convert.extracted_data. rewrite extract_items_assign.
  apply NoDup_keys_assign_all. constructor.
Qed.

Lemma get_extracted d k v :
  In (k, v) (assignments d) -> (forall v', In (k, v') (assignments d) -> v' = v) ->
  Dict.get (Convert.extracted_data d) k = Some v.
Proof.
  intros. unfold Convert.extracted_data. rewrite extract_items_assign.
  now apply get_assign_all.
Qed.

Lemma In_assignments_nested d K inner j v :
  In (K, JDict inner) d -> In (j, v) inner -> In (compound K j, v) (assignments d).
Proof.
  intros HK Hj. unfold assignments. apply in_flat_map.
  exists (K, JDict inner). split; [assumption|].
  apply in_map_iff. exists (j, v). auto.
Qed.

Lemma In_assignments_inv d n v :
  In (n, v) (assignments d) ->
  (In (n, v) d /\ as_dict v = None)
  \/ (exists K inner j, In (K, JDict inner) d /\ In (j, v) inner /\ n = compound K j).
Proof.
  unfold assignments. rewrite in_flat_map. intros ([key value] & Hd & H).
  destruct value; simpl in H;
    try (destruct H as [E|[]]; inversion E; subst; left; now split).
  right. apply in_map_iff in H. destruct H as ([j x] & E & H). simpl in E.
  inversion E; subst. now exists key, d0, j.
Qed.

Lemma assignments_flat d :
  (forall k v, In (k, v) d -> as_dict v = None) -> assignments d = d.
Proof.
  induction d as [|[k v] d IH]; intros H; simpl; [reflexivity|].
  rewrite IH by (intros; eapply H; right; eassumption).
  specialize (H k v (or_introl eq_refl)). destruct v; try reflexivity. discriminate.
Qed.

Lemma assign_all_fresh (es acc : dict) :
  NoDup (Dict.keys (acc ++ es)) -> assign_all es acc = acc ++ es.
Proof.
  revert acc. induction es as [|[k v] es IH]; intros acc ND; simpl.
  - now rewrite app_nil_r.
  - unfold assign_all in *. simpl.
    assert (N : ~ In k (Dict.keys acc)).
    { unfold Dict.keys in ND. rewrite map_app in ND. simpl in ND.
      apply NoDup_remove_2 in ND. rewrite in_app_iff in ND. tauto. }
    rewrite set_fresh by assumption.
    rewrite IH; rewrite <- app_assoc; simpl; [reflexivity|assumption].
Qed.

Lemma wf_json_keys d : wf_json (JDict d) = true -> NoDup (Dict.keys d).
Proof.
  simpl. rewrite andb_true_iff. intros [H _]. now apply nodupb_NoDup.
Qed.

(** ** Row flattener *)

Lemma flatten_sub_extract_sub key sub acc :
  Current.flatten_sub key sub acc = Convert.extract_sub key sub acc.
Proof.
  revert acc. induction sub as [|[sub_key sub_value] sub IH]; intros acc; simpl; auto.
Qed.

Lemma flatten_items_extract_items d acc :
  Current.flatten_items d acc = Convert.extract_items d acc.
Proof.
  revert acc. induction d as [|[key value] d IH]; intros acc; simpl; [reflexivity|].
  destruct value; simpl; rewrite ?flatten_sub_extract_sub; apply IH.
Qed.

(** C7: the flattening loop of [transform_current_weather_data] and the one of
    [convert_weather_api_dict_to_dataframe] compute the same flat mapping from
    every input mapping. *)
Theorem flatteners_agree (data_dict : dict) :
  Current.flattened_data data_dict = Convert.extracted_data data_dict.
Proof. apply flatten_items_extract_items. Qed.

Lemma nested_entry_value d K inner j v :
  Dict.get d K = Some (JDict inner) -> Dict.get inner j = Some v ->
  NoDup (generated_names d) ->
  Dict.get (Convert.extracted_data d) (compound K j) = Some v.
Proof.
  intros HK Hj ND. apply get_extracted.
  - apply In_assignments_nested with (inner := inner); now apply get_In.
  - intros v' H'. eapply NoDup_names_unique; [exact ND| |eassumption].
    apply In_assignments_nested with (inner := inner); now apply get_In.
Qed.

Lemma nested_entry_present d K inner j :
  In (K, JDict inner) d -> In j (Dict.keys inner) ->
  In (compound K j) (Dict.keys (Convert.extracted_data d)).
Proof.
  intros HK Hj. apply keys_extracted.
  apply in_map_iff in Hj. destruct Hj as ([j' v] & E & Hj). simpl in E. subst j'.
  unfold generated_names. apply in_map_iff. exists (compound K j, v). split; [reflexivity|].
  now apply In_assignments_nested with (inner := inner).
Qed.

(** C2, as stated, fails on [colliding]: the nested key [a_b] is also the name
    generated from [a] and [b], so the output has an entry named [a_b]. *)
Lemma flattener_claim_counterexample :
  ~ (forall (d : dict) (K : string) (inner : dict),
        wf_json (JDict d) = true ->
        Dict.get d K = Some (JDict inner) ->
        (forall j v, Dict.get inner j = Some v ->
                     Dict.get (Convert.extracted_data d) (compound K j) = Some v)
        /\ Dict.get (Convert.extracted_data d) K = None).
Proof.
  intros H.
  destruct (H colliding "a_b" [("c", JInt 2)] eq_refl eq_refl) as [_ H'].
  vm_compute in H'. discriminate.
Qed.

(** On the same input the entry generated from [a] and [b_c] does not hold the
    inner value 3: [a_b] and [c] assign the same name later. *)
Example colliding_value :
  Dict.get colliding "a" = Some (JDict [("b", JInt 1); ("b_c", JInt 3)])
  /\ Convert.extracted_data colliding = [("a_b", JInt 1); ("a_b_c", JInt 2)].
Proof. split; reflexivity. Qed.

(** C2, amended.  A well-formed mapping without nested values is returned
    unchanged.  For a nested mapping under [K], the output has an entry named
    [K_<innerkey>] for every inner key; it holds the inner value when the
    generated names are pairwise distinct; and the output has no entry named
    [K] when no nested entry generates the name [K]. *)
Theorem flattener_entries (d : dict) :
  wf_json (JDict d) = true ->
  ((forall k v, In (k, v) d -> as_dict v = None) -> Convert.extracted_data d = d)
  /\ (forall K inner,
        Dict.get d K = Some (JDict inner) ->
        (forall j v,
            Dict.get inner j = Some v ->
            In (compound K j) (Dict.keys (Convert.extracted_data d))
            /\ (nodupb (generated_names d) = true ->
                Dict.get (Convert.extracted_data d) (compound K j) = Some v))
        /\ ((forall K' inner' j,
                In (K', JDict inner') d -> In j (Dict.keys inner') -> compound K' j <> K) ->
            Dict.get (Convert.extracted_data d) K = None)).
Proof.
  intros Hwf. pose proof (wf_json_keys d Hwf) as ND. split.
  - intros Hflat. unfold Convert.extracted_data.
    rewrite extract_items_assign, assignments_flat by assumption.
    now apply assign_all_fresh.
  - intros K inner HK. split.
    + intros j v Hj. split.
      * apply nested_entry_present with (inner := inner).
        -- now apply get_In.
        -- eapply get_keys; eassumption.
      * intros Hnames. apply nested_entry_value with (inner := inner); auto.
        now apply nodupb_NoDup.
    + intros Hfree. apply get_None. rewrite keys_extracted.
      unfold generated_names. intros Hin.
      apply in_map_iff in Hin. destruct Hin as ([n v] & E & Hin). simpl in E. subst n.
      apply In_assignments_inv in Hin.
      destruct Hin as [[Hin Hv]|(K' & inner' & j & HK' & Hj & E)].
      * apply (In_get_NoDup d K v ND) in Hin. rewrite HK in Hin.
        inversion Hin; subst. discriminate.
      * apply (Hfree K' inner' j HK'); [|congruence].
        now apply (in_map fst) in Hj.
Qed.

Lemma flattener_entries_witness :
  Convert.extracted_data [("dt", JInt 1700000000)] = [("dt", JInt 1700000000)]
  /\ Dict.get (Convert.extracted_data sample_current) "main_temp" = Some (JInt 15)
  /\ Dict.get (Convert.extracted_data sample_current) "main" = None.
Proof.
  split; [|split].
  - apply (proj1 (flattener_entries [("dt", JInt 1700000000)] eq_refl)).
    intros k v [E|[]]. inversion E. reflexivity.
  - exact (proj2 (proj1 (proj2 (flattener_entries sample_current eq_refl)
                           "main" [("temp", JInt 15)] eq_refl)
                    "temp" (JInt 15) eq_refl) eq_refl).
  - apply (proj2 (proj2 (flattener_entries sample_current eq_refl)
                    "main" [("temp", JInt 15)] eq_refl)).
    intros K' inner' j [E|[E|[]]] Hj; inversion E; subst.
    destruct Hj as [<-|[]]. discriminate.
Defined.

(** C8, as stated, fails on [doubly_nested]: the scalar under [a_b] is
    assigned after the dict generated from [a] and [b] and replaces it. *)
Lemma one_level_claim_counterexample :
  ~ (forall (d : dict) (K : string) (inner : dict) (J : string) (D : dict),
        wf_json (JDict d) = true ->
        Dict.get d K = Some (JDict inner) ->
        Dict.get inner J = Some (JDict D) ->
        Dict.get (Convert.extracted_data d) (compound K J) = Some (JDict D)).
Proof.
  intros H.
  specialize (H doubly_nested "a" [("b", JDict [("x", JInt 1)])] "b" [("x", JInt 1)]
                eq_refl eq_refl eq_refl).
  vm_compute in H. discriminate.
Qed.

(** C8, amended: a dict [D] under inner key [J] of the nested mapping under
    [K] is emitted whole under the name [K_J], not expanded, provided the
    generated names are pairwise distinct. *)
Theorem flattener_one_level (d : dict) (K : string) (inner : dict) (J : string) (D : dict) :
  Dict.get d K = Some (JDict inner) ->
  Dict.get inner J = Some (JDict D) ->
  nodupb (generated_names d) = true ->
  Dict.get (Convert.extracted_data d) (compound K J) = Some (JDict D).
Proof.
  intros HK HJ Hnames. apply nested_entry_value with (inner := inner); auto.
  now apply nodupb_NoDup.
Qed.

Lemma flattener_one_level_witness :
  Dict.get (Convert.extracted_data doubly_nested_alone) "a_b" = Some (JDict [("x", JInt 1)]).
Proof.
  apply (flattener_one_level doubly_nested_alone "a" [("b", JDict [("x", JInt 1)])] "b");
    reflexivity.
Defined.

(** ** The calendar of [civil_from_days] *)

Ltac Zify.zify_post_hook ::= Z.div_mod_to_equations.

Open Scope Z_scope.

Lemma civil_unfold n :
  civil_from_days n
  = ymd_of (era_of n) (yoe_of (doe_of n)) (doe_of n - ystart (yoe_of (doe_of n))).
Proof. reflexivity. Qed.

Lemma doe_range n : 0 <= doe_of n <= 146096.
Proof. unfold doe_of, era_of. lia. Qed.

Lemma era_step n :
  (era_of (n + 1) = era_of n /\ doe_of (n + 1) = doe_of n + 1 /\ doe_of n < 146096)
  \/ (era_of (n + 1) = era_of n + 1 /\ doe_of (n + 1) = 0 /\ doe_of n = 146096).
Proof. unfold doe_of, era_of. lia. Qed.

Lemma leap_end_spec yoe :
  (leap_end yoe = 1 /\ (yoe + 1) mod 4 = 0
   /\ ((yoe + 1) mod 100 <> 0 \/ (yoe + 1) mod 400 = 0))
  \/ (leap_end yoe = 0
      /\ ((yoe + 1) mod 4 <> 0 \/ ((yoe + 1) mod 100 = 0 /\ (yoe + 1) mod 400 <> 0))).
Proof.
  unfold leap_end.
  destruct (Z.eqb_spec ((yoe + 1) mod 4) 0), (Z.eqb_spec ((yoe + 1) mod 100) 0),
    (Z.eqb_spec ((yoe + 1) mod 400) 0); cbn; tauto.
Qed.

Lemma is_leap_spec y :
  (is_leap y = true /\ y mod 4 = 0 /\ (y mod 100 <> 0 \/ y mod 400 = 0))
  \/ (is_leap y = false /\ (y mod 4 <> 0 \/ (y mod 100 = 0 /\ y mod 400 <> 0))).
Proof.
  unfold is_leap.
  destruct (Z.eqb_spec (y mod 4) 0), (Z.eqb_spec (y mod 100) 0),
    (Z.eqb_spec (y mod 400) 0); cbn; tauto.
Qed.

(** The year of the era is the one whose days contain the day of the era. *)
Lemma yoe_range doe :
  0 <= doe <= 146096 ->
  0 <= yoe_of doe <= 399
  /\ 0 <= doe - ystart (yoe_of doe) <= 364 + leap_end (yoe_of doe).
Proof.
  intros H. destruct (leap_end_spec (yoe_of doe)) as [(-> & L)|(-> & L)];
    unfold yoe_of, ystart in *; lia.
Qed.

Lemma yoe_step doe :
  0 <= doe < 146096 ->
  yoe_of (doe + 1) = yoe_of doe
  \/ (yoe_of (doe + 1) = yoe_of doe + 1
      /\ doe + 1 = ystart (yoe_of doe + 1)
      /\ doe - ystart (yoe_of doe) = 364 + leap_end (yoe_of doe)).
Proof.
  intros H. destruct (leap_end_spec (yoe_of doe)) as [(-> & L)|(-> & L)];
    unfold yoe_of, ystart in *; lia.
Qed.

Lemma yoe_last :
  yoe_of 146096 = 399 /\ 146096 - ystart 399 = 365 /\ yoe_of 0 = 0 /\ ystart 0 = 0.
Proof. repeat split. Qed.

Lemma triple_eq (a a' b b' c c' : Z) :
  a = a' -> b = b' -> c = c' -> (a, b, c) = (a', b', c').
Proof. congruence. Qed.

Ltac split_ifs :=
  repeat match goal with
  | |- context [if ?c then _ else _] =>
      let E := fresh "E" in destruct c eqn:E; rewrite ?E in *
  | H : context [if ?c then _ else _] |- _ =>
      let E := fresh "E" in destruct c eqn:E; rewrite ?E in *
  end.

(** Inside a year that starts on 1 March the date steps like the calendar. *)
Lemma month_step era yoe doy :
  0 <= yoe <= 399 -> 0 <= doy -> doy + 1 <= 364 + leap_end yoe ->
  ymd_of era yoe (doy + 1) = next_day (ymd_of era yoe doy).
Proof.
  intros Hy H0 H1. pose proof (leap_end_spec yoe) as L.
  unfold ymd_of, next_day, days_in_month, is_leap. cbv zeta.
  assert (Hm : 0 <= (5 * doy + 2) / 153 <= 11) by lia.
  assert (Hm' : (5 * (doy + 1) + 2) / 153 = (5 * doy + 2) / 153
                \/ (5 * (doy + 1) + 2) / 153 = (5 * doy + 2) / 153 + 1) by lia.
  split_ifs; try lia; apply triple_eq; lia.
Qed.

Lemma ymd_of_start era yoe : ymd_of era yoe 0 = (yoe + era * 400, 3, 1).
Proof. reflexivity. Qed.

Lemma ymd_of_end era yoe l :
  l = 0 \/ l = 1 -> ymd_of era yoe (364 + l) = (yoe + era * 400 + 1, 2, 28 + l).
Proof. intros [->| ->]; reflexivity. Qed.

Lemma next_day_feb_end y l :
  l = (if is_leap y then 1 else 0) -> next_day (y, 2, 28 + l) = (y, 3, 1).
Proof.
  intros ->. unfold next_day, days_in_month. change (2 =? 2) with true. cbv iota.
  destruct (is_leap y); reflexivity.
Qed.

Lemma leap_end_is_leap era yoe :
  leap_end yoe = if is_leap (yoe + era * 400 + 1) then 1 else 0.
Proof.
  destruct (leap_end_spec yoe) as [[-> L]|[-> L]];
    destruct (is_leap_spec (yoe + era * 400 + 1)) as [[-> L']|[-> L']];
    try reflexivity; lia.
Qed.

Lemma year_roll era yoe :
  ymd_of era (yoe + 1) 0 = next_day (ymd_of era yoe (364 + leap_end yoe)).
Proof.
  rewrite ymd_of_start, ymd_of_end.
  - rewrite next_day_feb_end by apply leap_end_is_leap. f_equal. f_equal. lia.
  - destruct (leap_end_spec yoe) as [[-> _]|[-> _]]; auto.
Qed.

Lemma era_roll era : ymd_of (era + 1) 0 0 = next_day (ymd_of era 399 365).
Proof.
  rewrite ymd_of_start. change 365 with (364 + leap_end 399).
  rewrite <- year_roll, ymd_of_start. f_equal. f_equal. lia.
Qed.

(** Day 0 is 1 January 1970, and every day is followed by the next date of
    the Gregorian calendar: [civil_from_days] is that calendar. *)
Lemma civil_from_days_epoch : civil_from_days 0 = (1970, 1, 1).
Proof. reflexivity. Qed.

Lemma civil_from_days_step n :
  civil_from_days (n + 1) = next_day (civil_from_days n).
Proof.
  rewrite !civil_unfold.
  pose proof (doe_range n) as R.
  destruct (era_step n) as [(-> & -> & Hlt)|(-> & -> & Heq)].
  - pose proof (yoe_range (doe_of n) R) as (Hy & Hd).
    pose proof (yoe_range (doe_of n + 1) ltac:(lia)) as (Hy' & Hd').
    destruct (yoe_step (doe_of n)) as [E|(E & E' & Hl)]; [lia| |].
    + rewrite E in *.
      replace (doe_of n + 1 - ystart (yoe_of (doe_of n)))
        with (doe_of n - ystart (yoe_of (doe_of n)) + 1) by lia.
      apply month_step; lia.
    + rewrite E, E', Hl, Z.sub_diag. apply year_roll.
  - rewrite Heq. destruct yoe_last as (-> & -> & -> & ->). apply era_roll.
Qed.

(** The time of day: hours, minutes and seconds in their ranges, adding up
    with the whole days to the epoch value. *)
Lemma Timestamp_of_seconds_spec t :
  let ts := Timestamp_of_seconds t in
  (year ts, month ts, day ts) = civil_from_days (t / 86400)
  /\ 0 <= hour ts < 24 /\ 0 <= minute ts < 60 /\ 0 <= second ts < 60
  /\ t = 86400 * (t / 86400) + 3600 * hour ts + 60 * minute ts + second ts.
Proof.
  unfold Timestamp_of_seconds.
  destruct (civil_from_days (t / 86400)) as [[y m] d].
  cbn [year month day hour minute second].
  split; [reflexivity|]. lia.
Qed.

Close Scope Z_scope.

(** ** The printed timestamp *)

Open Scope Z_scope.

Lemma civil_from_days_valid n :
  1 <= snd (fst (civil_from_days n)) <= 12 /\ 1 <= snd (civil_from_days n) <= 31.
Proof.
  rewrite civil_unfold.
  pose proof (doe_range n) as R.
  pose proof (yoe_range (doe_of n) R) as (Hy & Hd).
  destruct (leap_end_spec (yoe_of (doe_of n))) as [[L _]|[L _]]; rewrite L in Hd;
    generalize dependent (doe_of n - ystart (yoe_of (doe_of n))); intros doy Hd;
    unfold ymd_of; cbv zeta; cbn [fst snd]; split_ifs; lia.
Qed.

Lemma civil_from_days_year n :
  -106752 <= n <= 106751 -> 1677 <= fst (fst (civil_from_days n)) <= 2262.
Proof.
  intros Hn. rewrite civil_unfold.
  pose proof (doe_range n) as R.
  pose proof (yoe_range (doe_of n) R) as (Hy & Hd).
  unfold ymd_of; cbv zeta; cbn [fst snd]. 
  assert (He : era_of n = 4 \/ era_of n = 5) by (unfold era_of; lia).
  unfold doe_of, yoe_of, ystart in *. split_ifs; destruct He as [He|He]; rewrite He in *; lia.
Qed.
Close Scope Z_scope.

Lemma Z_below_seq (n : Z) (lo len : nat) :
  (Z.of_nat lo <= n < Z.of_nat (lo + len))%Z -> In (Z.to_nat n) (seq lo len).
Proof. intros H. apply in_seq. lia. Qed.

Lemma forall_range (P : Z -> bool) (lo len : nat) :
  forallb (fun k => P (Z.of_nat k)) (seq lo len) = true ->
  forall n, (Z.of_nat lo <= n < Z.of_nat (lo + len))%Z -> P n = true.
Proof.
  intros H n Hn. rewrite forallb_forall in H.
  specialize (H (Z.to_nat n) (Z_below_seq n lo len Hn)).
  rewrite Z2Nat.id in H by lia. exact H.
Qed.

Lemma length_pad2 n : (0 <= n < 100)%Z -> String.length (pad2 n) = 2.
Proof.
  intros H. apply Nat.eqb_eq.
  apply (forall_range (fun n => Nat.eqb (String.length (pad2 n)) 2) 0 100);
    [vm_compute; reflexivity|lia].
Qed.

Lemma length_pad4 n : (1000 <= n < 3000)%Z -> String.length (pad4 n) = 4.
Proof.
  intros H. apply Nat.eqb_eq.
  apply (forall_range (fun n => Nat.eqb (String.length (pad4 n)) 4) 1000 2000);
    [vm_compute; reflexivity|lia].
Qed.

Lemma string_length_append (s1 s2 : string) :
  String.length (s1 ++ s2) = String.length s1 + String.length s2.
Proof. induction s1 as [|c s1 IH]; simpl; congruence. Qed.

Lemma in_bounds_days t :
  in_bounds t = true -> (-106752 <= t / 86400 <= 106751)%Z.
Proof.
  unfold in_bounds, ns_max. rewrite andb_true_iff, !Z.leb_le. lia.
Qed.

(** Inside the bounds the text has the shape [YYYY-MM-DD HH:MM:SS]: nineteen
    characters, the year between 1677 and 2262. *)
Lemma length_strftime t :
  in_bounds t = true -> String.length (strftime (Timestamp_of_seconds t)) = 19.
Proof.
  intros Hb. pose proof (in_bounds_days t Hb) as Hd.
  pose proof (civil_from_days_year _ Hd) as Hy.
  pose proof (civil_from_days_valid (t / 86400)%Z) as [Hm Hday].
  pose proof (Timestamp_of_seconds_spec t) as (E & Hh & Hmin & Hs & _).
  cbv zeta in E. rewrite <- E in Hy, Hm, Hday. cbn [fst snd] in Hy, Hm, Hday.
  unfold strftime. rewrite !string_length_append.
  rewrite length_pad4, !length_pad2 by lia. reflexivity.
Qed.

(** ** Tables *)

Lemma row_get_record (d : dict) c :
  row_get (map fst d) (map (fun kv => CVal (snd kv)) d) c = option_map CVal (Dict.get d c).
Proof.
  induction d as [|[k v] d IH]; simpl; [reflexivity|].
  destruct (String.eqb k c); auto.
Qed.


Lemma mem_cons c c' cols : mem c (c' :: cols) = (String.eqb c' c || mem c cols)%bool.
Proof. unfold mem. simpl. now rewrite String.eqb_sym. Qed.

Lemma columns_with_cons c c' cols :
  columns_with (c' :: cols) c
  = if String.eqb c' c then c' :: cols else c' :: columns_with cols c.
Proof.
  unfold columns_with. rewrite mem_cons.
  destruct (String.eqb c' c); simpl; [reflexivity|].
  now destruct (mem c cols).
Qed.

Lemma row_get_set_eq cols row c x :
  List.length row = List.length cols ->
  row_get (columns_with cols c) (row_set cols row c x) c = Some x.
Proof.
  revert row.
  induction cols as [|c' cols IH]; intros [|y row] L; simpl in L; try discriminate.
  - simpl. now rewrite String.eqb_refl.
  - rewrite columns_with_cons. simpl.
    destruct (String.eqb c' c) eqn:E; simpl; rewrite E; [reflexivity|].
    apply IH. congruence.
Qed.

Lemma row_get_set_neq cols row c x c' :
  c' <> c -> List.length row = List.length cols ->
  row_get (columns_with cols c) (row_set cols row c x) c' = row_get cols row c'.
Proof.
  intros N. revert row.
  induction cols as [|c0 cols IH]; intros [|y row] L; simpl in L; try discriminate.
  - simpl. destruct (String.eqb_spec c c'); [congruence|reflexivity].
  - rewrite columns_with_cons. simpl.
    destruct (String.eqb_spec c0 c) as [->|N0]; simpl.
    + destruct (String.eqb_spec c c'); [congruence|reflexivity].
    + destruct (String.eqb c0 c'); [reflexivity|]. apply IH. congruence.
Qed.

Lemma length_row_set cols row c x :
  List.length row = List.length cols ->
  List.length (row_set cols row c x) = List.length (columns_with cols c).
Proof.
  revert row.
  induction cols as [|c0 cols IH]; intros [|y row] L; simpl in L; try discriminate.
  - reflexivity.
  - rewrite columns_with_cons. simpl.
    destruct (String.eqb c0 c); simpl; [congruence|].
    f_equal. apply IH. congruence.
Qed.

Lemma In_columns_with cols c k : In k (columns_with cols c) <-> In k cols \/ k = c.
Proof.
  unfold columns_with. destruct (mem c cols) eqn:E.
  - apply mem_In in E. split; [tauto|]. intros [H| ->]; assumption.
  - rewrite in_app_iff. simpl. intuition.
Qed.

Lemma mem_columns_with cols c : mem c (columns_with cols c) = true.
Proof. apply mem_In, In_columns_with. now right. Qed.

Lemma columns_with_idem cols c : columns_with (columns_with cols c) c = columns_with cols c.
Proof. unfold columns_with at 1. now rewrite mem_columns_with. Qed.

(** Assigning a column of a one-row table. *)
Lemma set_column_single cols row c x :
  set_column (mkDataFrame cols [row]) c [x]
  = mkDataFrame (columns_with cols c) [row_set cols row c x].
Proof. reflexivity. Qed.

Lemma column_single cols row c :
  column (mkDataFrame cols [row]) c
  = [match row_get cols row c with Some x => x | None => CNaN end].
Proof. reflexivity. Qed.

(** ** Current-weather transformer *)

Lemma mem_dt_columns (fl : dict) :
  mem "dt" (columns (DataFrame_of_record fl))
  = match Dict.get fl "dt" with Some _ => true | None => false end.
Proof.
  simpl. destruct (Dict.get fl "dt") eqn:E.
  - apply mem_In. eapply get_keys. eassumption.
  - apply mem_false. now apply get_None.
Qed.

(** C4, as stated, fails on [far_future]: an epoch value in the year 33658 is
    outside the timestamps the library represents and the conversion
    raises. *)
Lemma current_timestamp_claim_counterexample :
  ~ (forall (w : World) (d : dict) (t : Z),
        Dict.get (Current.flattened_data d) "dt" = Some (JInt t) ->
        exists df,
          transform_current_weather_data w (JDict d) = Ok df
          /\ df_cell df 0 "dt" = Some (CVal (JInt t))
          /\ df_cell df 0 "dt_txt"
             = Some (CVal (JStr (strftime (Timestamp_of_seconds t))))).
Proof.
  intros H.
  destruct (H obliging_world far_future 1000000000000%Z eq_refl) as (df & E & _).
  vm_compute in E. discriminate.
Qed.

Example far_future_raises (w : World) :
  transform_current_weather_data w (JDict far_future) = Raise OutOfBoundsDatetime.
Proof. reflexivity. Qed.

(** C4, amended.  When the flattened record holds under ['dt'] an integer
    epoch value that fits the nanosecond timestamp, the result is a one-row
    table that keeps ['dt'] and every other flattened column, and whose
    ['dt_txt'] is the UTC timestamp of that value printed as
    [YYYY-MM-DD HH:MM:SS], nineteen characters; the example of the specification gives
    [2023-11-14 22:13:20]; and without ['dt'] the table is the flattened
    record alone. *)
Theorem current_timestamp_column (w : World) :
  (forall (d : dict) (t : Z),
      Dict.get (Current.flattened_data d) "dt" = Some (JInt t) ->
      in_bounds t = true ->
      exists df,
        transform_current_weather_data w (JDict d) = Ok df
        /\ List.length (rows df) = 1
        /\ columns df = columns_with (Dict.keys (Current.flattened_data d)) "dt_txt"
        /\ df_cell df 0 "dt" = Some (CVal (JInt t))
        /\ df_cell df 0 "dt_txt"
           = Some (CVal (JStr (strftime (Timestamp_of_seconds t))))
        /\ (forall k, k <> "dt_txt" ->
                      df_cell df 0 k
                      = option_map CVal (Dict.get (Current.flattened_data d) k))
        /\ String.length (strftime (Timestamp_of_seconds t)) = 19)
  /\ transform_current_weather_data w (JDict sample_current)
     = Ok (mkDataFrame ["dt"; "main_temp"; "dt_txt"]
             [[CVal (JInt 1700000000); CVal (JInt 15);
               CVal (JStr "2023-11-14 22:13:20")]])
  /\ (forall (d : dict),
         Dict.get (Current.flattened_data d) "dt" = None ->
         transform_current_weather_data w (JDict d)
         = Ok (DataFrame_of_record (Current.flattened_data d))).
Proof.
  split; [|split].
  - intros d t Hdt Hb.
    unfold transform_current_weather_data. cbn [items rbind].
    fold (Current.flattened_data d).
    set (fl := Current.flattened_data d) in *.
    rewrite mem_dt_columns, Hdt.
    unfold DataFrame_of_record.
    set (cols := map fst fl). set (row := map (fun kv => CVal (snd kv)) fl).
    assert (L : List.length row = List.length cols) by (unfold row, cols; now rewrite !List.length_map).
    assert (G : forall c, row_get cols row c = option_map CVal (Dict.get fl c))
      by (intros; apply row_get_record).
    rewrite column_single. cbn [columns rows]. rewrite G, Hdt. cbn [option_map].
    cbn [rmap to_datetime_s]. rewrite Hb. cbn [rbind].
    rewrite set_column_single, column_single, row_get_set_eq by assumption.
    cbn [rmap strftime_cell rbind]. rewrite set_column_single.
    set (stamp := CTimestamp (Timestamp_of_seconds t)).
    set (text := CVal (JStr (strftime (Timestamp_of_seconds t)))).
    pose proof (length_row_set cols row "dt_txt" stamp L) as L'.
    eexists. split; [reflexivity|]. cbn [rows columns List.length].
    split; [reflexivity|]. split; [apply columns_with_idem|].
    unfold df_cell. cbn [rows columns nth_error].
    repeat split.
    + rewrite !row_get_set_neq by (congruence || assumption).
      now rewrite G, Hdt.
    + now rewrite row_get_set_eq.
    + intros k Hk. rewrite !row_get_set_neq by (congruence || assumption). apply G.
    + now apply length_strftime.
  - reflexivity.
  - intros d Hdt. unfold transform_current_weather_data. cbn [items rbind].
    fold (Current.flattened_data d). now rewrite mem_dt_columns, Hdt.
Qed.

Lemma current_timestamp_column_witness :
  exists df,
    transform_current_weather_data obliging_world (JDict sample_current) = Ok df
    /\ df_cell df 0 "dt" = Some (CVal (JInt 1700000000))
    /\ df_cell df 0 "dt_txt" = Some (CVal (JStr "2023-11-14 22:13:20"))
    /\ df_cell df 0 "main_temp" = Some (CVal (JInt 15)).
Proof.
  destruct (proj1 (current_timestamp_column obliging_world)
              sample_current 1700000000%Z eq_refl eq_refl)
    as (df & E & _ & _ & Hdt & Htxt & Hrest & _).
  exists df. repeat split; try assumption.
  apply (Hrest "main_temp"). discriminate.
Defined.

(** ** Concatenation and cross merge *)

Lemma row_get_notin cols row c : ~ In c cols -> row_get cols row c = None.
Proof.
  revert row. induction cols as [|c' cols IH]; intros [|x row] N; simpl in *; auto.
  destruct (String.eqb_spec c' c); [tauto|]. apply IH. tauto.
Qed.


Lemma row_get_some_in cols row c x : row_get cols row c = Some x -> In c cols.
Proof.
  intros H. destruct (in_dec string_dec c cols) as [Hin|N]; [assumption|].
  rewrite row_get_notin in H by assumption. discriminate.
Qed.




Lemma length_rows_concat a b :
  List.length (rows (concat a b)) = List.length (rows a) + List.length (rows b).
Proof. unfold concat. simpl. now rewrite List.length_app, !List.length_map. Qed.




Lemma df_cell_notin df i c : ~ In c (columns df) -> df_cell df i c = None.
Proof.
  intros N. unfold df_cell. destruct (nth_error (rows df) i); [|reflexivity].
  now apply row_get_notin.
Qed.


Lemma disjoint_spec l1 l2 :
  disjoint l1 l2 = true <-> (forall c, In c l1 -> ~ In c l2).
Proof.
  unfold disjoint. rewrite forallb_forall. split; intros H c Hc.
  - apply mem_false, negb_true_iff. auto.
  - apply negb_true_iff, mem_false. auto.
Qed.

Lemma flat_map_single {A B} (f : A -> B) (l : list A) : flat_map (fun x => [f x]) l = map f l.
Proof. induction l; simpl; congruence. Qed.

Lemma map_suffixed_nil suffix cols : map (suffixed [] suffix) cols = cols.
Proof.
  induction cols as [|c cols IH]; [reflexivity|].
  cbn [map]. rewrite IH. reflexivity.
Qed.

(** Without a shared label the cross merge renames nothing; against a one-row
    table it appends that row to every row. *)
Lemma merge_cross_disjoint left right rr :
  rows right = [rr] -> NoDup (columns left) -> NoDup (columns right) ->
  disjoint (columns left) (columns right) = true ->
  merge_cross left right
  = Ok (mkDataFrame (columns left ++ columns right) (map (fun l => l ++ rr) (rows left))).
Proof.
  intros Hrr Hl Hr Hd. unfold merge_cross.
  assert (S : filter (fun c => mem c (columns right)) (columns left) = []).
  { rewrite disjoint_spec in Hd. induction (columns left) as [|c cols IH]; simpl; [reflexivity|].
    destruct (mem c (columns right)) eqn:E.
    - apply mem_In in E. exfalso. apply (Hd c); simpl; auto.
    - apply IH.
      + now inversion Hl.
      + intros c' Hc'. apply Hd. now right. }
  rewrite S, !map_suffixed_nil, Hrr.
  assert (N : nodupb (columns left ++ columns right) = true).
  { apply nodupb_NoDup, NoDup_app; auto. now apply disjoint_spec. }
  rewrite N. simpl. now rewrite flat_map_single.
Qed.

(** ** Forecast transformer *)

Lemma has_weather_list_inv forecast_item :
  has_weather_list forecast_item = true ->
  exists fields first rest,
    forecast_item = JDict fields
    /\ Dict.get fields "weather" = Some (JList (first :: rest))
    /\ take_first_weather forecast_item = Ok (JDict (Dict.set fields "weather" first)).
Proof.
  destruct forecast_item as [| | | | | |fields]; try discriminate. simpl.
  destruct (Dict.get fields "weather") as [[| | | | |[|first rest]|]|] eqn:E; try discriminate.
  intros _. exists fields, first, rest. split; [reflexivity|]. split; [assumption|].
  unfold take_first_weather. simpl. rewrite E. reflexivity.
Qed.

Lemma with_first_weather_ok forecast_item fields first rest :
  forecast_item = JDict fields ->
  Dict.get fields "weather" = Some (JList (first :: rest)) ->
  with_first_weather forecast_item = JDict (Dict.set fields "weather" first).
Proof.
  intros -> E. unfold with_first_weather, take_first_weather. simpl. now rewrite E.
Qed.

(** On intervals that each have a non-empty ['weather'] list the loop runs to
    its end: it accumulates the interval tables and leaves every interval
    with its ['weather'] replaced. *)
Lemma forecast_loop_ok forecasts forecast_df :
  forallb has_weather_list forecasts = true ->
  forecast_loop forecasts forecast_df
  = (Ok (interval_table forecasts forecast_df), map with_first_weather forecasts).
Proof.
  revert forecast_df. induction forecasts as [|it rest IH]; intros forecast_df H; simpl in *.
  - reflexivity.
  - apply andb_true_iff in H. destruct H as [Hit Hrest].
    destruct (has_weather_list_inv it Hit) as (fields & first & tl & -> & Hw & Ht).
    rewrite Ht. cbn [convert_weather_api_dict_to_dataframe items rbind].
    rewrite IH by assumption.
    unfold interval_fields. rewrite (with_first_weather_ok _ fields first tl eq_refl Hw).
    reflexivity.
Qed.


Lemma shaped_record d : NoDup (Dict.keys d) -> shaped (DataFrame_of_record d).
Proof.
  intros ND. split; [exact ND|]. constructor; [|constructor].
  simpl. now rewrite !List.length_map.
Qed.


Lemma val_record_S d i c : val (DataFrame_of_record d) (S i) c = CNaN.
Proof. unfold val, df_cell. simpl. now destruct i. Qed.






Lemma transform_forecasted_run (d city : dict) (forecasts : list json) :
  Dict.get d "city" = Some (JDict city) ->
  Dict.get d "list" = Some (JList forecasts) ->
  forallb has_weather_list forecasts = true ->
  transform_forecasted_weather_data (JDict d)
  = (merge_cross (interval_table forecasts DataFrame_empty)
       (DataFrame_of_record (Convert.extracted_data city)),
     JDict (Dict.set d "list" (JList (map with_first_weather forecasts)))).
Proof.
  intros Hc Hl Hw. unfold transform_forecasted_weather_data.
  cbn [getitem]. rewrite Hc, Hl.
  cbn [convert_weather_api_dict_to_dataframe items rbind iter].
  rewrite forecast_loop_ok by assumption. reflexivity.
Qed.


Example clashing_forecast_table :
  fst (transform_forecasted_weather_data (JDict clashing_forecast))
  = Ok (mkDataFrame ["weather_main"; "id_x"; "id_y"]
          [[CVal (JStr "Rain"); CVal (JInt 7); CVal (JInt 1)]]).
Proof. reflexivity. Qed.



(** ** The argument of the forecast transformer after the call *)

Lemma jsize_head_lt first rest : jsize first < jsize (JList (first :: rest)).
Proof. simpl. lia. Qed.

Lemma first_weather_differs fields first rest :
  Dict.get fields "weather" = Some (JList (first :: rest)) ->
  Dict.set fields "weather" first <> fields.
Proof.
  intros Hw E. pose proof (get_set_eq fields "weather" first) as G.
  rewrite E, Hw in G. inversion G as [G'].
  pose proof (jsize_head_lt first rest) as L. rewrite G' in L. lia.
Qed.

Lemma keys_set_present {A} (d : list (string * A)) k v v' :
  Dict.get d k = Some v -> Dict.keys (Dict.set d k v') = Dict.keys d.
Proof.
  intros H. rewrite keys_set.
  apply get_keys, mem_In in H. now rewrite H.
Qed.

(** C10: on a record with a ['city'] mapping and a ['list'] of intervals that
    each have a non-empty ['weather'] list, the call leaves the caller's
    record with every interval's ['weather'] overwritten by the first element
    of its list, in place; the other entries of the record and of every
    interval are as before; and with at least one interval the record is no
    longer the one passed in. *)
Theorem forecast_argument_mutated (d city : dict) (forecasts : list json) :
  Dict.get d "city" = Some (JDict city) ->
  Dict.get d "list" = Some (JList forecasts) ->
  forallb has_weather_list forecasts = true ->
  exists d',
    snd (transform_forecasted_weather_data (JDict d)) = JDict d'
    /\ Dict.keys d' = Dict.keys d
    /\ Dict.get d' "list" = Some (JList (map with_first_weather forecasts))
    /\ (forall k, k <> "list" -> Dict.get d' k = Dict.get d k)
    /\ (forall i it,
           nth_error forecasts i = Some it ->
           exists fields first rest,
             it = JDict fields
             /\ Dict.get fields "weather" = Some (JList (first :: rest))
             /\ with_first_weather it = JDict (Dict.set fields "weather" first)
             /\ Dict.keys (Dict.set fields "weather" first) = Dict.keys fields
             /\ Dict.get (Dict.set fields "weather" first) "weather" = Some first
             /\ (forall k, k <> "weather" ->
                           Dict.get (Dict.set fields "weather" first) k
                           = Dict.get fields k))
    /\ (forecasts <> [] -> d' <> d).
Proof.
  intros Hc Hl Hw.
  rewrite (transform_forecasted_run d city forecasts Hc Hl Hw). cbn [snd].
  eexists. split; [reflexivity|].
  split; [eapply keys_set_present; eassumption|].
  split; [apply get_set_eq|].
  split; [intros k Hk; apply get_set_neq; congruence|].
  split.
  - intros i it Hi.
    rewrite forallb_forall in Hw.
    destruct (has_weather_list_inv it (Hw it (nth_error_In _ _ Hi)))
      as (fields & first & rest & -> & Hf & _).
    exists fields, first, rest. split; [reflexivity|]. split; [assumption|].
    split; [now apply with_first_weather_ok with (rest := rest)|].
    split; [eapply keys_set_present; eassumption|].
    split; [apply get_set_eq|].
    intros k Hk. apply get_set_neq. congruence.
  - intros Hne E.
    pose proof (get_set_eq d "list" (JList (map with_first_weather forecasts))) as G.
    rewrite E, Hl in G. inversion G as [G'].
    destruct forecasts as [|it rest]; [congruence|].
    simpl in Hw. apply andb_true_iff in Hw. destruct Hw as [Hit _].
    destruct (has_weather_list_inv it Hit) as (fields & first & tl & -> & Hf & _).
    simpl in G'. inversion G' as [[G1 G2]].
    rewrite (with_first_weather_ok _ fields first tl eq_refl Hf) in G1.
    inversion G1 as [G3]. symmetry in G3.
    exact (first_weather_differs fields first tl Hf G3).
Qed.

Lemma forecast_argument_mutated_witness :
  exists d',
    snd (transform_forecasted_weather_data (JDict sample_forecast)) = JDict d'
    /\ Dict.get d' "list"
       = Some (JList [JDict [("dt", JInt 1700000000);
                             ("weather", JDict [("main", JStr "Rain")]);
                             ("pop", JFloat "0.2")];
                      JDict [("dt", JInt 1700010800);
                             ("weather", JDict [("main", JStr "Clear")]);
                             ("rain", JDict [("3h", JFloat "0.4")])]])
    /\ d' <> sample_forecast.
Proof.
  destruct (forecast_argument_mutated sample_forecast _ _ eq_refl eq_refl eq_refl)
    as (d' & E & _ & Hlist & _ & _ & Hne).
  exists d'. split; [exact E|]. split; [exact Hlist|].
  apply Hne. discriminate.
Defined.

(** ** Table writer *)

Ltac run := unfold bind, try_except, call, lift, print, emit, ret, any_exception.

Lemma ensure_dataset_id w s project_id dataset_id tr0 tr1 qualified :
  ensure_dataset w s project_id dataset_id tr0 = (Ok qualified, tr1) ->
  qualified = (project_id ++ "." ++ dataset_id)%string.
Proof.
  unfold ensure_dataset. run.
  destruct (LOCAL_RUNNING s); cbn beta iota zeta;
    repeat match goal with
      | |- context [match ?x with _ => _ end] => destruct x; cbn beta iota zeta
      end; intros E; inversion E; reflexivity.
Qed.

(** C6: once the dataset step has gone through, a load job that fails with an
    exception, when submitted or when waited for, makes the call log the
    table's column types, the destination identifier and the job
    configuration and raise that same exception; any failure of the load is
    raised to the caller; and a load that succeeds makes the call return. *)
Theorem upload_load_outcome (w : World) (s : Settings) (dataframe : DataFrame)
    (project_id dataset_id table_name : string) (tr0 tr1 : trace) (qualified : string) :
  ensure_dataset w s project_id dataset_id tr0 = (Ok qualified, tr1) ->
  let table_id := ((project_id ++ "." ++ dataset_id) ++ "." ++ table_name)%string in
  let tr2 := tr1 ++ [EvPrint (PStr "Created a BigQuery job_config variable")] in
  let loaded := load_table_from_dataframe w tr2 dataframe table_id job_config in
  let tr3 := tr2 ++ [EvLoad dataframe table_id job_config loaded] in
  let waited := job_result w tr3 table_id in
  let tr4 := tr3 ++ [EvJobResult table_id waited] in
  let logs e := [EvPrint (PDtypes dataframe); EvPrint (PStr table_id);
                 EvPrint (PJobConfig job_config); EvPrint (PExn e)] in
  let outcome :=
    upload_df_to_bigquery w s dataframe project_id dataset_id table_name tr0 in
  (forall e, loaded = Raise e -> is_Exception e = true ->
             outcome = (Raise e, tr3 ++ logs e))
  /\ (forall e, loaded = Ok tt -> waited = Raise e -> is_Exception e = true ->
                outcome = (Raise e, tr4 ++ logs e))
  /\ (forall e, loaded = Raise e \/ (loaded = Ok tt /\ waited = Raise e) ->
                fst outcome = Raise e)
  /\ (loaded = Ok tt -> waited = Ok tt ->
      outcome = (Ok tt, tr4 ++ [EvPrint (PStr "Saved data into BigQuery")])).
Proof.
  intros Hsetup. pose proof (ensure_dataset_id _ _ _ _ _ _ _ Hsetup) as ->.
  cbv zeta. unfold upload_df_to_bigquery, load_dataframe. run.
  rewrite Hsetup. cbv beta iota.
  set (table_id := ((project_id ++ "." ++ dataset_id) ++ "." ++ table_name)%string).
  set (tr2 := tr1 ++ [EvPrint (PStr "Created a BigQuery job_config variable")]).
  split; [|split; [|split]].
  - intros e E He. rewrite E. cbv beta iota. rewrite He.
    rewrite <- !app_assoc. reflexivity.
  - intros e E1 E2 He. rewrite E1 in *. cbv beta iota. rewrite E2. cbv beta iota.
    rewrite He. rewrite <- !app_assoc. reflexivity.
  - intros e [E1|[E1 E2]].
    + rewrite E1. cbv beta iota. now destruct (is_Exception e).
    + rewrite E1 in *. cbv beta iota. rewrite E2. cbv beta iota.
      now destruct (is_Exception e).
  - intros E1 E2. rewrite E1 in *. cbv beta iota. rewrite E2. cbv beta iota.
    rewrite <- !app_assoc. reflexivity.
Qed.

Lemma upload_load_outcome_witness :
  upload_df_to_bigquery load_refusing_world sample_settings DataFrame_empty
    "project" "weather" "current_weather" []
  = (Raise (OtherException "BadRequest"),
     [EvClient (Ok tt);
      EvCreateDataset "project.weather" (Ok tt);
      EvPrint (PCreatedDataset "project.weather");
      EvPrint (PStr "Created a BigQuery job_config variable");
      EvLoad DataFrame_empty "project.weather.current_weather" job_config
        (Raise (OtherException "BadRequest"));
      EvPrint (PDtypes DataFrame_empty);
      EvPrint (PStr "project.weather.current_weather");
      EvPrint (PJobConfig job_config);
      EvPrint (PExn (OtherException "BadRequest"))]).
Proof.
  exact (proj1 (upload_load_outcome load_refusing_world sample_settings DataFrame_empty
                  "project" "weather" "current_weather" [] _ _ eq_refl)
           (OtherException "BadRequest") eq_refl eq_refl).
Defined.

(** ** Traces of the fetcher and of the writer *)

Ltac destruct_innermost :=
  match goal with
  | |- context [match ?x with _ => _ end] =>
      lazymatch x with
      | context [match _ with _ => _ end] => fail
      | _ => destruct x eqn:?
      end
  end.

Lemma fetch_api_data_trace w url tr :
  exists r, snd (fetch_api_data w url tr) = tr ++ [EvGet url r].
Proof.
  unfold fetch_api_data. run. exists (requests_get w tr url).
  repeat destruct_innermost; reflexivity.
Qed.

Lemma fetch_location_trace w api_key wd location_name l tr :
  exists evs,
    snd (fetch_location w api_key wd location_name l tr) = tr ++ evs
    /\ Forall fetch_event evs.
Proof.
  unfold fetch_location.
  destruct (fetch_api_data_trace w (current_url l api_key) tr) as (r1 & E1).
  destruct (fetch_api_data w (current_url l api_key) tr) as [[cur|e] tr1];
    cbn [snd] in E1; subst tr1.
  - destruct (fetch_api_data_trace w (forecast_url l api_key)
                (tr ++ [EvGet (current_url l api_key) r1])) as (r2 & E2).
    destruct (fetch_api_data w (forecast_url l api_key)
                (tr ++ [EvGet (current_url l api_key) r1])) as [[fc|e] tr2];
      cbn [snd] in E2; subst tr2.
    + eexists. split; [cbn [snd]; rewrite <- app_assoc; reflexivity|].
      repeat constructor.
    + run. destruct (is_RequestException e); cbn [snd];
        (eexists; split; [rewrite <- ?app_assoc; reflexivity|repeat constructor]).
  - run. destruct (is_RequestException e); cbn [snd];
      (eexists; split; [rewrite <- ?app_assoc; reflexivity|repeat constructor]).
Qed.

Lemma fetch_locations_trace w api_key locations wd tr :
  exists evs,
    snd (fetch_locations w api_key locations wd tr) = tr ++ evs
    /\ Forall fetch_event evs.
Proof.
  revert wd tr. induction locations as [|[location_name l] rest IH]; intros wd tr.
  - exists []. split; [simpl; now rewrite app_nil_r|constructor].
  - cbn [fetch_locations]. unfold bind.
    destruct (fetch_location_trace w api_key wd location_name l tr) as (evs1 & E1 & F1).
    destruct (fetch_location w api_key wd location_name l tr) as [[wd'|e] tr1];
      cbn [snd] in E1; subst tr1.
    + destruct (IH wd' (tr ++ evs1)) as (evs2 & E2 & F2).
      exists (evs1 ++ evs2). rewrite E2, app_assoc. split; [reflexivity|].
      apply Forall_app. now split.
    + exists evs1. now split.
Qed.

Lemma get_weather_data_trace w locations api_key tr :
  exists evs,
    snd (get_weather_data w locations api_key tr) = tr ++ evs
    /\ Forall fetch_event evs.
Proof.
  unfold get_weather_data. unfold bind at 1.
  destruct (fetch_locations_trace w api_key locations (mkWeatherData [] []) tr)
    as (evs & E & F).
  destruct (fetch_locations w api_key locations (mkWeatherData [] []) tr) as [[wd|e] tr1];
    cbn [snd] in E; subst tr1.
  - run. cbn [snd]. eexists. split; [rewrite <- app_assoc; reflexivity|].
    apply Forall_app. split; [assumption|repeat constructor].
  - exists evs. now split.
Qed.

Ltac close_trace :=
  repeat match goal with u : unit |- _ => destruct u end;
  cbn [fst snd]; eexists; split;
  [rewrite <- ?app_assoc; reflexivity
  |split;
   [cbn [app]; repeat first [apply Forall_nil | apply Forall_cons; [simpl; auto|]]
   |try (intros; discriminate); intros _; cbn [app In]; auto 20]].

(** A write emits events of its own table only, and returns only after its
    load job has been submitted and waited for with success. *)
Lemma upload_trace w s dataframe project_id dataset_id table_name tr :
  let table_id := ((project_id ++ "." ++ dataset_id) ++ "." ++ table_name)%string in
  let outcome :=
    upload_df_to_bigquery w s dataframe project_id dataset_id table_name tr in
  exists evs,
    snd outcome = tr ++ evs
    /\ Forall (write_event table_id) evs
    /\ (fst outcome = Ok tt ->
        In (EvLoad dataframe table_id job_config (Ok tt)) evs
        /\ In (EvJobResult table_id (Ok tt)) evs).
Proof.
  cbv zeta. unfold upload_df_to_bigquery, ensure_dataset, load_dataframe. run.
  repeat destruct_innermost; close_trace.
Qed.

(** ** Orchestrator *)

Lemma string_app_inv_head (p a b : string) : (p ++ a = p ++ b)%string -> a = b.
Proof. induction p as [|c p IH]; simpl; intros E; [assumption|]. inversion E. auto. Qed.

Lemma table_ids_differ s :
  table_id_of s "current_weather" <> table_id_of s "forecasted_weather".
Proof.
  unfold table_id_of. intros E.
  apply string_app_inv_head, string_app_inv_head in E. discriminate.
Qed.

(** C5: the events of a run are those of fetching, then those of writing the
    current table, then those of writing the forecast table; no request to
    the provider follows the start of a write, no load job precedes the end
    of fetching, and the forecast table is touched only after the load job
    of the current table has been submitted and waited for with success. *)
Theorem main_order (w : World) (s : Settings) (locations_dict : list (string * location))
    (r : request) (tr0 : trace) :
  exists fetched current_write forecast_write,
    snd (main w s locations_dict r tr0)
    = tr0 ++ fetched ++ current_write ++ forecast_write
    /\ Forall fetch_event fetched
    /\ Forall (write_event (table_id_of s "current_weather")) current_write
    /\ Forall (write_event (table_id_of s "forecasted_weather")) forecast_write
    /\ table_id_of s "current_weather" <> table_id_of s "forecasted_weather"
    /\ (forecast_write <> [] ->
        (exists df, In (EvLoad df (table_id_of s "current_weather") job_config (Ok tt))
                       current_write)
        /\ In (EvJobResult (table_id_of s "current_weather") (Ok tt)) current_write).
Proof.
  assert (Stop : forall fetched current_write tr,
             tr = tr0 ++ fetched ++ current_write ->
             Forall fetch_event fetched ->
             Forall (write_event (table_id_of s "current_weather")) current_write ->
             exists fetched current_write forecast_write,
               tr = tr0 ++ fetched ++ current_write ++ forecast_write
               /\ Forall fetch_event fetched
               /\ Forall (write_event (table_id_of s "current_weather")) current_write
               /\ Forall (write_event (table_id_of s "forecasted_weather")) forecast_write
               /\ table_id_of s "current_weather" <> table_id_of s "forecasted_weather"
               /\ (forecast_write <> [] ->
                   (exists df,
                       In (EvLoad df (table_id_of s "current_weather") job_config (Ok tt))
                          current_write)
                   /\ In (EvJobResult (table_id_of s "current_weather") (Ok tt))
                         current_write)).
  { intros fetched current_write tr E F1 F2. exists fetched, current_write, [].
    rewrite app_nil_r. repeat split; auto using table_ids_differ; congruence. }
  unfold main. unfold bind at 1. unfold lift at 1.
  destruct (request_body w r) as [body|e]; cbn [snd];
    [|apply (Stop [] []); [now rewrite app_nil_r|constructor|constructor]].
  unfold bind at 1.
  destruct (get_weather_data_trace w locations_dict (API_KEY s) tr0) as (fetched & E1 & F1).
  destruct (get_weather_data w locations_dict (API_KEY s) tr0) as [[data|e] tr1];
    cbn [snd] in E1; subst tr1; cbn [snd];
    [|apply (Stop fetched []); [now rewrite app_nil_r|assumption|constructor]].
  unfold bind at 1. unfold lift at 1.
  destruct (current_tables w (current data) DataFrame_empty) as [current_weather|e];
    cbn [snd];
    [|apply (Stop fetched []); [now rewrite app_nil_r|assumption|constructor]].
  unfold bind at 1. unfold lift at 1.
  destruct (forecast_tables (forecast data) DataFrame_empty) as [forecast_weather|e];
    cbn [snd];
    [|apply (Stop fetched []); [now rewrite app_nil_r|assumption|constructor]].
  unfold bind at 1.
  destruct (upload_trace w s current_weather (GCP_PROJECT_ID s) (DATASET_ID s)
              "current_weather" (tr0 ++ fetched)) as (cw & E2 & F2 & D2).
  fold (table_id_of s "current_weather") in F2, D2.
  destruct (upload_df_to_bigquery w s current_weather (GCP_PROJECT_ID s) (DATASET_ID s)
              "current_weather" (tr0 ++ fetched)) as [[[]|e] tr2];
    cbn [fst snd] in E2, D2; subst tr2; cbn [snd];
    [|apply (Stop fetched cw); [now rewrite app_assoc|assumption|assumption]].
  destruct (D2 eq_refl) as [D2l D2w].
  unfold bind at 1.
  destruct (upload_trace w s forecast_weather (GCP_PROJECT_ID s) (DATASET_ID s)
              "forecasted_weather" ((tr0 ++ fetched) ++ cw)) as (fw & E3 & F3 & _).
  fold (table_id_of s "forecasted_weather") in F3.
  exists fetched, cw, fw. split.
  - destruct (upload_df_to_bigquery w s forecast_weather (GCP_PROJECT_ID s) (DATASET_ID s)
                "forecasted_weather" ((tr0 ++ fetched) ++ cw)) as [[[]|e] tr3];
      cbn [snd] in E3; subst tr3; cbn [snd ret]; now rewrite <- !app_assoc.
  - repeat split; auto using table_ids_differ. now exists current_weather.
Qed.

(** C9: two payloads that both parse start the same run: the outcome and all
    the events agree, and a run that returns, returns ["200, Success"]. *)
Theorem main_ignores_payload (w : World) (s : Settings)
    (locations_dict : list (string * location)) (r1 r2 : request) (body1 body2 : json)
    (tr0 : trace) :
  request_body w r1 = Ok body1 ->
  request_body w r2 = Ok body2 ->
  main w s locations_dict r1 tr0 = main w s locations_dict r2 tr0
  /\ (forall status, fst (main w s locations_dict r1 tr0) = Ok status ->
                     status = "200, Success").
Proof.
  intros H1 H2. unfold main. unfold bind at 1 3 5. unfold lift at 1 5 9.
  rewrite H1, H2. split; [reflexivity|].
  intros status. run.
  repeat destruct_innermost; cbn [fst]; intros E; inversion E; reflexivity.
Qed.

Lemma main_ignores_payload_witness :
  main obliging_world sample_settings paris (RawPayload "{}") []
  = main obliging_world sample_settings paris
      (RequestObject (Ok (JDict [("", JStr "")]))) []
  /\ fst (main obliging_world sample_settings paris (RawPayload "{}") [])
     = Ok "200, Success".
Proof.
  destruct (main_ignores_payload obliging_world sample_settings paris
              (RawPayload "{}") (RequestObject (Ok (JDict [("", JStr "")])))
              (JDict []) (JDict [("", JStr "")]) [] eq_refl eq_refl) as [E H].
  split; [exact E|]. reflexivity.
Defined.

(** ** Weather fetcher *)

(** C1 does not hold of the code: with a provider whose current-weather call
    succeeds and whose forecast call fails, the location stays in the
    ['current'] mapping, which line 105 has already written, and is absent
    from ['forecast'] only. *)
Theorem partial_fetch_kept :
  exists wd tr,
    get_weather_data forecast_down_world paris "KEY" [] = (Ok wd, tr)
    /\ Dict.get (current wd) "Paris" = Some (JDict [("dt", JInt 1700000000)])
    /\ Dict.get (forecast wd) "Paris" = None
    /\ In (EvPrint (PFetchError "Paris" (HTTPError "500 Server Error"))) tr.
Proof.
  eexists. eexists. split; [reflexivity|]. cbn [current forecast].
  split; [reflexivity|]. split; [reflexivity|]. simpl. auto.
Qed.

(** * Further properties of the code *)

(** ** Row flattener: where entries come from, and in which order *)

Lemma get_assign_all_In (es acc : dict) n v :
  Dict.get (assign_all es acc) n = Some v -> In (n, v) es \/ Dict.get acc n = Some v.
Proof.
  revert acc. induction es as [|[k x] es IH]; intros acc H; [now right|].
  unfold assign_all in *. cbn [fold_left fst snd] in H.
  destruct (IH _ H) as [Hin|Hacc]; [left; now right|].
  destruct (String.eqb_spec k n) as [->|N].
  - rewrite get_set_eq in Hacc. inversion Hacc; subst. left. now left.
  - rewrite get_set_neq in Hacc by assumption. now right.
Qed.

Lemma extracted_entry_inv (d : dict) (n : string) (v : json) :
  Dict.get (Convert.extracted_data d) n = Some v ->
  (In (n, v) d /\ as_dict v = None)
  \/ (exists K inner j, In (K, JDict inner) d /\ In (j, v) inner /\ n = compound K j).
Proof.
  unfold Convert.extracted_data. rewrite extract_items_assign. intros H.
  apply get_assign_all_In in H. destruct H as [H|H]; [|discriminate].
  now apply In_assignments_inv.
Qed.

(** Every entry of the flattened row is an entry of the input: a top-level
    entry that is not a mapping, under its own key, or an inner entry of a
    nested mapping, under the compound name.  Nothing else is emitted, and no
    value is rewritten. *)
Theorem flattener_provenance (d : dict) (n : string) (v : json) :
  Dict.get (Convert.extracted_data d) n = Some v ->
  (In (n, v) d /\ as_dict v = None)
  \/ (exists K inner j, In (K, JDict inner) d /\ In (j, v) inner /\ n = compound K j).
Proof. intros H. now apply extracted_entry_inv. Qed.

Lemma flattener_provenance_witness :
  (In ("main_temp", JInt 15) sample_current /\ as_dict (JInt 15) = None)
  \/ (exists K inner j,
         In (K, JDict inner) sample_current /\ In (j, JInt 15) inner
         /\ "main_temp" = compound K j).
Proof. apply (flattener_provenance sample_current "main_temp" (JInt 15)). reflexivity. Defined.

Lemma assignments_app d1 d2 : assignments (d1 ++ d2) = assignments d1 ++ assignments d2.
Proof. unfold assignments. apply flat_map_app. Qed.

(** A key whose value is an empty mapping leaves no trace in the row: the
    result is that of the input without the key. *)
Theorem flattener_drops_empty_mapping (d1 d2 : dict) (K : string) :
  Convert.extracted_data (d1 ++ (K, JDict []) :: d2) = Convert.extracted_data (d1 ++ d2).
Proof.
  unfold Convert.extracted_data. rewrite !extract_items_assign.
  change ((K, JDict []) :: d2) with ([(K, JDict [])] ++ d2).
  now rewrite !assignments_app.
Qed.

Lemma extracted_scalar_values d :
  (forall K inner j v, In (K, JDict inner) d -> In (j, v) inner -> as_dict v = None) ->
  forall k v, In (k, v) (Convert.extracted_data d) -> as_dict v = None.
Proof.
  intros Hone k v Hin.
  apply (In_get_NoDup _ k v (NoDup_keys_extracted d)) in Hin.
  apply extracted_entry_inv in Hin.
  destruct Hin as [[_ H]|(K & inner & j & HK & Hj & _)]; [assumption|].
  eapply Hone; eassumption.
Qed.

(** On an input nested one level only, flattening the flattened row again
    changes nothing. *)
Theorem flattener_idempotent (d : dict) :
  (forall K inner j v, In (K, JDict inner) d -> In (j, v) inner -> as_dict v = None) ->
  Convert.extracted_data (Convert.extracted_data d) = Convert.extracted_data d.
Proof.
  intros Hone. unfold Convert.extracted_data at 1.
  rewrite extract_items_assign, assignments_flat
    by now apply extracted_scalar_values.
  apply assign_all_fresh. apply NoDup_keys_extracted.
Qed.

Lemma flattener_idempotent_witness :
  Convert.extracted_data (Convert.extracted_data colliding) = Convert.extracted_data colliding.
Proof.
  apply (flattener_idempotent colliding).
  intros K inner j v [E|[E|[]]] Hj; inversion E; subst;
    repeat (destruct Hj as [E'|Hj]; [inversion E'; reflexivity|]); destruct Hj.
Defined.

Lemma keys_assign_all (es acc : dict) :
  Dict.keys (assign_all es acc) = Dict.keys acc ++ fresh_names (Dict.keys acc) (map fst es).
Proof.
  revert acc. induction es as [|[k v] es IH]; intros acc.
  - simpl. now rewrite app_nil_r.
  - unfold assign_all in *. cbn [fold_left fst snd map fresh_names].
    rewrite IH, keys_set. destruct (mem k (Dict.keys acc)); [reflexivity|].
    now rewrite <- app_assoc.
Qed.

(** The columns of the flattened row are the generated names in the order of
    their first assignment, each once. *)
Theorem flattener_column_order (d : dict) :
  Dict.keys (Convert.extracted_data d) = fresh_names [] (generated_names d).
Proof.
  unfold Convert.extracted_data. rewrite extract_items_assign.
  apply (keys_assign_all (assignments d) []).
Qed.

Lemma has_underscore_app s1 s2 :
  has_underscore (s1 ++ s2) = (has_underscore s1 || has_underscore s2)%bool.
Proof.
  induction s1 as [|c s1 IH]; simpl; [reflexivity|]. now rewrite IH, orb_assoc.
Qed.

Lemma has_underscore_compound K j : has_underscore (compound K j) = true.
Proof.
  unfold compound. rewrite has_underscore_app. simpl. apply orb_true_r.
Qed.

Lemma In_assignments_scalar d n v :
  In (n, v) d -> as_dict v = None -> In (n, v) (assignments d).
Proof.
  intros Hin Hv. unfold assignments. apply in_flat_map. exists (n, v).
  split; [assumption|]. destruct v; try discriminate; now left.
Qed.

(** A name without an underscore is never a compound name, so under such a
    name the row has exactly the top-level entry of the input, unless that is
    a mapping, and then nothing. *)
Theorem flattener_plain_key (d : dict) (n : string) :
  NoDup (Dict.keys d) ->
  has_underscore n = false ->
  Dict.get (Convert.extracted_data d) n
  = match Dict.get d n with
    | Some (JDict _) => None
    | other => other
    end.
Proof.
  intros ND Hn.
  assert (Hplain : forall v', In (n, v') (assignments d) -> In (n, v') d /\ as_dict v' = None).
  { intros v' H'. apply In_assignments_inv in H'.
    destruct H' as [H'|(K & inner & j & _ & _ & E)]; [assumption|].
    rewrite E, has_underscore_compound in Hn. discriminate. }
  assert (Hnone : (forall v', In (n, v') d -> as_dict v' <> None) ->
                  Dict.get (Convert.extracted_data d) n = None).
  { intros Hno. apply get_None. rewrite keys_extracted. unfold generated_names.
    intros Hin. apply in_map_iff in Hin. destruct Hin as ([n' v'] & E & Hin).
    simpl in E. subst n'. destruct (Hplain v' Hin) as [Hd Hv]. exact (Hno v' Hd Hv). }
  destruct (Dict.get d n) as [v|] eqn:G.
  - assert (Huniq : forall v', In (n, v') d -> v' = v).
    { intros v' H'. apply (In_get_NoDup d n v' ND) in H'. congruence. }
    destruct (as_dict v) eqn:Ev.
    + destruct v; try discriminate. apply Hnone.
      intros v' H'. rewrite (Huniq v' H'). discriminate.
    + transitivity (Some v); [|now destruct v].
      apply get_extracted.
      * apply In_assignments_scalar; [now apply get_In|assumption].
      * intros v' H'. apply Huniq. now apply Hplain.
  - apply Hnone. intros v' H'. apply (In_get_NoDup d n v' ND) in H'. congruence.
Qed.

Lemma flattener_plain_key_witness :
  Dict.get (Convert.extracted_data sample_current) "dt" = Some (JInt 1700000000)
  /\ Dict.get (Convert.extracted_data sample_current) "main" = None.
Proof.
  split.
  - apply (flattener_plain_key sample_current "dt"); [|reflexivity].
    repeat constructor; simpl; intuition discriminate.
  - apply (flattener_plain_key sample_current "main"); [|reflexivity].
    repeat constructor; simpl; intuition discriminate.
Defined.

(** ** Current-weather transformer: shape and bounds *)

Lemma rmap_single {A B} (f : A -> result B) (x : A) (ys : list B) :
  rmap f [x] = Ok ys -> exists y, f x = Ok y /\ ys = [y].
Proof.
  simpl. destruct (f x) as [y|e]; [|discriminate].
  intros E. inversion E. now exists y.
Qed.

Lemma transform_current_shape (w : World) (data_dict : json) (df : DataFrame) :
  transform_current_weather_data w data_dict = Ok df ->
  exists d,
    data_dict = JDict d
    /\ List.length (rows df) = 1
    /\ columns df
       = match Dict.get (Current.flattened_data d) "dt" with
         | Some _ => columns_with (Dict.keys (Current.flattened_data d)) "dt_txt"
         | None => Dict.keys (Current.flattened_data d)
         end.
Proof.
  unfold transform_current_weather_data.
  destruct data_dict as [| | | | | |d]; try discriminate.
  cbn [items rbind]. fold (Current.flattened_data d).
  set (fl := Current.flattened_data d). rewrite mem_dt_columns.
  intros H. exists d. split; [reflexivity|]. fold fl.
  destruct (Dict.get fl "dt") as [x|] eqn:Hdt.
  - unfold DataFrame_of_record in H. rewrite column_single in H.
    destruct (rmap (to_datetime_s w) _) as [stamps|e] eqn:E1; [|discriminate].
    apply rmap_single in E1. destruct E1 as (stamp & _ & ->).
    cbn [rbind] in H. rewrite set_column_single, column_single in H.
    destruct (rmap strftime_cell _) as [texts|e] eqn:E2; [|discriminate].
    apply rmap_single in E2. destruct E2 as (text & _ & ->).
    cbn [rbind] in H. rewrite set_column_single, columns_with_idem in H.
    inversion H. split; reflexivity.
  - inversion H. split; reflexivity.
Qed.

(** Whenever the transformer returns a table, its argument was a mapping and
    the table has exactly one row; its columns are the flattened keys, with
    ['dt_txt'] added when the row has a ['dt'] and no ['dt_txt'] yet. *)
Theorem current_table_single_row (w : World) (data_dict : json) (df : DataFrame) :
  transform_current_weather_data w data_dict = Ok df ->
  exists d,
    data_dict = JDict d
    /\ List.length (rows df) = 1
    /\ columns df
       = match Dict.get (Current.flattened_data d) "dt" with
         | Some _ => columns_with (Dict.keys (Current.flattened_data d)) "dt_txt"
         | None => Dict.keys (Current.flattened_data d)
         end.
Proof. intros H. now apply transform_current_shape with (w := w). Qed.

Lemma current_table_single_row_witness :
  exists d,
    JDict sample_current = JDict d
    /\ List.length
         (rows (mkDataFrame ["dt"; "main_temp"; "dt_txt"]
                  [[CVal (JInt 1700000000); CVal (JInt 15);
                    CVal (JStr "2023-11-14 22:13:20")]])) = 1
    /\ ["dt"; "main_temp"; "dt_txt"]
       = match Dict.get (Current.flattened_data d) "dt" with
         | Some _ => columns_with (Dict.keys (Current.flattened_data d)) "dt_txt"
         | None => Dict.keys (Current.flattened_data d)
         end.
Proof.
  exact (current_table_single_row obliging_world (JDict sample_current) _ eq_refl).
Defined.



(** ** Forecast transformer: failures, the empty list, a second call *)

Lemma interval_table_app pre post acc :
  interval_table (pre ++ post) acc = interval_table post (interval_table pre acc).
Proof. apply fold_left_app. Qed.

Lemma forecast_loop_stops pre bad post acc e :
  forallb has_weather_list pre = true ->
  take_first_weather bad = Raise e ->
  forecast_loop (pre ++ bad :: post) acc
  = (Raise e, map with_first_weather pre ++ bad :: post).
Proof.
  revert acc. induction pre as [|it pre IH]; intros acc Hpre Hbad.
  - simpl. now rewrite Hbad.
  - simpl in Hpre. apply andb_true_iff in Hpre. destruct Hpre as [Hit Hpre].
    destruct (has_weather_list_inv it Hit) as (fields & first & tl & -> & Hw & Ht).
    cbn [app forecast_loop map]. rewrite Ht.
    cbn [convert_weather_api_dict_to_dataframe items rbind].
    rewrite IH by assumption.
    now rewrite (with_first_weather_ok _ fields first tl eq_refl Hw).
Qed.

Lemma transform_forecasted_stops
    (d city : dict) (pre post : list json) (bad : json) (e : exn) :
  Dict.get d "city" = Some (JDict city) ->
  Dict.get d "list" = Some (JList (pre ++ bad :: post)) ->
  forallb has_weather_list pre = true ->
  take_first_weather bad = Raise e ->
  transform_forecasted_weather_data (JDict d)
  = (Raise e,
     JDict (Dict.set d "list" (JList (map with_first_weather pre ++ bad :: post)))).
Proof.
  intros Hc Hl Hpre Hbad. unfold transform_forecasted_weather_data.
  cbn [getitem]. rewrite Hc, Hl.
  cbn [convert_weather_api_dict_to_dataframe items rbind iter].
  rewrite (forecast_loop_stops pre bad post _ e Hpre Hbad). reflexivity.
Qed.

(** When line 185 fails on an interval, the call raises that exception and
    the caller's record keeps the intervals before it overwritten, the failing
    one and those after it untouched. *)
Theorem forecast_failure_leaves_prefix_mutated
    (d city : dict) (pre post : list json) (bad : json) (e : exn) :
  Dict.get d "city" = Some (JDict city) ->
  Dict.get d "list" = Some (JList (pre ++ bad :: post)) ->
  forallb has_weather_list pre = true ->
  take_first_weather bad = Raise e ->
  transform_forecasted_weather_data (JDict d)
  = (Raise e,
     JDict (Dict.set d "list" (JList (map with_first_weather pre ++ bad :: post)))).
Proof. intros Hc Hl Hpre Hbad. now apply transform_forecasted_stops with (city := city). Qed.

Lemma forecast_failure_leaves_prefix_mutated_witness :
  transform_forecasted_weather_data (JDict broken_forecast)
  = (Raise (KeyError (JStr "weather")),
     JDict
       [("city", JDict [("name", JStr "Paris")]);
        ("list", JList [JDict [("dt", JInt 1700000000);
                               ("weather", JDict [("main", JStr "Rain")])];
                        JDict [("dt", JInt 1700010800)];
                        JDict [("dt", JInt 1700021600);
                               ("weather", JList [JDict [("main", JStr "Clear")]])]])]).
Proof.
  exact (forecast_failure_leaves_prefix_mutated broken_forecast
           [("name", JStr "Paris")]
           [JDict [("dt", JInt 1700000000);
                   ("weather", JList [JDict [("main", JStr "Rain")]])]]
           [JDict [("dt", JInt 1700021600);
                   ("weather", JList [JDict [("main", JStr "Clear")]])]]
           (JDict [("dt", JInt 1700010800)]) (KeyError (JStr "weather"))
           eq_refl eq_refl eq_refl eq_refl).
Defined.





(** ** Row counts *)

Lemma set_same {A} (d : list (string * A)) k v : Dict.get d k = Some v -> Dict.set d k v = d.
Proof.
  induction d as [|[k' v'] d IH]; simpl; [discriminate|].
  destruct (String.eqb k' k) eqn:E; intros H; [congruence|]. now rewrite IH.
Qed.

(** A forecast record with an empty ['list'] gives a table with the city
    columns and no row, and the record is left as it was. *)
Theorem forecast_empty_list (d city : dict) :
  Dict.get d "city" = Some (JDict city) ->
  Dict.get d "list" = Some (JList []) ->
  transform_forecasted_weather_data (JDict d)
  = (Ok (mkDataFrame (Dict.keys (Convert.extracted_data city)) []), JDict d).
Proof.
  intros Hc Hl. rewrite (transform_forecasted_run d city [] Hc Hl eq_refl).
  cbn [map interval_table fold_left]. rewrite (set_same d "list" _ Hl). f_equal.
  rewrite (merge_cross_disjoint DataFrame_empty
             (DataFrame_of_record (Convert.extracted_data city))
             (map (fun kv => CVal (snd kv)) (Convert.extracted_data city)) eq_refl).
  - reflexivity.
  - constructor.
  - apply NoDup_keys_extracted.
  - reflexivity.
Qed.

Lemma forecast_empty_list_witness :
  transform_forecasted_weather_data
    (JDict [("city", JDict [("name", JStr "Paris"); ("coord", JDict [("lat", JInt 48)])]);
            ("list", JList [])])
  = (Ok (mkDataFrame ["name"; "coord_lat"] []),
     JDict [("city", JDict [("name", JStr "Paris"); ("coord", JDict [("lat", JInt 48)])]);
            ("list", JList [])]).
Proof.
  exact (forecast_empty_list
           [("city", JDict [("name", JStr "Paris"); ("coord", JDict [("lat", JInt 48)])]);
            ("list", JList [])]
           [("name", JStr "Paris"); ("coord", JDict [("lat", JInt 48)])]
           eq_refl eq_refl).
Defined.

Lemma forecast_loop_rows forecasts acc df forecasts' :
  forecast_loop forecasts acc = (Ok df, forecasts') ->
  List.length (rows df) = List.length (rows acc) + List.length forecasts.
Proof.
  revert acc df forecasts'. induction forecasts as [|it rest IH]; intros acc df fs' H.
  - simpl in H. inversion H. simpl. lia.
  - cbn [forecast_loop] in H.
    destruct (take_first_weather it) as [it'|e]; [|discriminate].
    destruct (convert_weather_api_dict_to_dataframe it') as [item_df|e] eqn:Ec; [|discriminate].
    destruct (forecast_loop rest (concat acc item_df)) as [r rest'] eqn:El.
    inversion H; subst r. apply IH in El. rewrite El, length_rows_concat.
    unfold convert_weather_api_dict_to_dataframe in Ec.
    destruct (items it') as [its|e]; [|discriminate]. inversion Ec. simpl. lia.
Qed.

Lemma merge_cross_single_rows left right rr df :
  rows right = [rr] -> merge_cross left right = Ok df ->
  List.length (rows df) = List.length (rows left).
Proof.
  unfold merge_cross. intros Hr. rewrite Hr.
  destruct (nodupb _); [|discriminate]. intros E. inversion E. cbn [rows].
  rewrite (flat_map_single (fun l => l ++ rr)). apply List.length_map.
Qed.

Lemma transform_forecasted_rows (data_dict : json) (df : DataFrame) :
  fst (transform_forecasted_weather_data data_dict) = Ok df ->
  List.length (rows df) = interval_count data_dict.
Proof.
  unfold transform_forecasted_weather_data, interval_count.
  destruct (getitem data_dict "city") as [city_dict|e]; [|discriminate].
  destruct (convert_weather_api_dict_to_dataframe city_dict) as [city_df|e] eqn:Ec;
    [|discriminate].
  destruct (getitem data_dict "list") as [forecasts_dict|e]; [|discriminate].
  cbn [rbind]. destruct (iter forecasts_dict) as [forecasts|e]; [|discriminate].
  destruct (forecast_loop forecasts DataFrame_empty) as [r forecasts'] eqn:El.
  cbn [fst]. destruct r as [forecast_df|e]; [|discriminate]. cbn [rbind].
  intros Hm. apply forecast_loop_rows in El. cbn [rows DataFrame_empty List.length] in El.
  unfold convert_weather_api_dict_to_dataframe in Ec.
  destruct (items city_dict) as [its|e]; [|discriminate]. inversion Ec; subst city_df.
  rewrite (merge_cross_single_rows forecast_df
             (DataFrame_of_record (Convert.extract_items its []))
             (map (fun kv => CVal (snd kv)) (Convert.extract_items its [])) df eq_refl Hm).
  exact El.
Qed.

(** Whenever the forecast transformer returns a table, it has one row per
    element of ['list'], also when interval and city columns were renamed by
    the merge. *)
Theorem forecast_table_row_count (data_dict : json) (df : DataFrame) :
  fst (transform_forecasted_weather_data data_dict) = Ok df ->
  List.length (rows df) = interval_count data_dict.
Proof. intros H. now apply transform_forecasted_rows. Qed.

Lemma forecast_table_row_count_witness :
  List.length
    (rows (mkDataFrame ["weather_main"; "id_x"; "id_y"]
             [[CVal (JStr "Rain"); CVal (JInt 7); CVal (JInt 1)]]))
  = interval_count (JDict clashing_forecast).
Proof.
  exact (forecast_table_row_count (JDict clashing_forecast)
           (mkDataFrame ["weather_main"; "id_x"; "id_y"]
              [[CVal (JStr "Rain"); CVal (JInt 7); CVal (JInt 1)]]) eq_refl).
Defined.

(** The current table of a run has one row per fetched record, in the order
    of the fetch. *)
Theorem current_tables_row_count (w : World) (values : list (string * json))
    (current_weather df : DataFrame) :
  current_tables w values current_weather = Ok df ->
  List.length (rows df) = List.length (rows current_weather) + List.length values.
Proof.
  revert current_weather. induction values as [|[key value] rest IH]; intros acc H.
  - simpl in H. inversion H. simpl. lia.
  - cbn [current_tables] in H.
    destruct (transform_current_weather_data w value) as [one|e] eqn:Et; [|discriminate].
    cbn [rbind] in H. apply IH in H. rewrite H, length_rows_concat.
    destruct (transform_current_shape w value one Et) as (d0 & _ & L & _).
    rewrite L. simpl. lia.
Qed.

Lemma current_tables_row_count_witness :
  exists df,
    current_tables obliging_world
      [("Paris", JDict sample_current); ("Lyon", JDict [("main", JDict [("temp", JInt 9)])])]
      DataFrame_empty = Ok df
    /\ List.length (rows df) = 2.
Proof.
  destruct (current_tables obliging_world
              [("Paris", JDict sample_current);
               ("Lyon", JDict [("main", JDict [("temp", JInt 9)])])]
              DataFrame_empty) as [df|e] eqn:E; [|vm_compute in E; discriminate E].
  exists df. split; [reflexivity|].
  exact (current_tables_row_count obliging_world _ DataFrame_empty df E).
Defined.

(** The forecast table of a run has, for every fetched record, one row per
    element of its ['list']. *)
Theorem forecast_tables_row_count (values : list (string * json))
    (forecast_weather df : DataFrame) :
  forecast_tables values forecast_weather = Ok df ->
  List.length (rows df)
  = List.length (rows forecast_weather)
    + list_sum (map (fun kv => interval_count (snd kv)) values).
Proof.
  revert forecast_weather. induction values as [|[key value] rest IH]; intros acc H.
  - simpl in H. inversion H. simpl. lia.
  - cbn [forecast_tables] in H.
    destruct (fst (transform_forecasted_weather_data value)) as [one|e] eqn:Et;
      [|discriminate].
    cbn [rbind] in H. apply IH in H. rewrite H, length_rows_concat.
    rewrite (transform_forecasted_rows value one Et). simpl. lia.
Qed.

Lemma forecast_tables_row_count_witness :
  exists df,
    forecast_tables [("Paris", JDict sample_forecast); ("Lyon", JDict clashing_forecast)]
      DataFrame_empty = Ok df
    /\ List.length (rows df) = 3.
Proof.
  destruct (forecast_tables
              [("Paris", JDict sample_forecast); ("Lyon", JDict clashing_forecast)]
              DataFrame_empty) as [df|e] eqn:E; [|vm_compute in E; discriminate E].
  exists df. split; [reflexivity|].
  exact (forecast_tables_row_count _ DataFrame_empty df E).
Defined.

(** ** Weather fetcher: what a run's result can hold *)

Lemma fetch_api_data_ok w url tr body tr' :
  fetch_api_data w url tr = (Ok body, tr') ->
  exists resp,
    tr' = tr ++ [EvGet url (Ok resp)]
    /\ raise_for_status resp = Ok tt
    /\ json_body resp = Ok body.
Proof.
  unfold fetch_api_data. run.
  destruct (requests_get w tr url) as [resp|e]; [|discriminate].
  destruct (raise_for_status resp) as [[]|e] eqn:Es; [|discriminate].
  intros E. inversion E. now exists resp.
Qed.

Lemma fetch_api_data_raise w url tr e tr' :
  fetch_api_data w url tr = (Raise e, tr') -> exists r, tr' = tr ++ [EvGet url r].
Proof.
  intros E. destruct (fetch_api_data_trace w url tr) as (r & Hr).
  rewrite E in Hr. now exists r.
Qed.

Lemma fetched_ok_app url body evs1 evs2 :
  fetched_ok url body evs1 \/ fetched_ok url body evs2 -> fetched_ok url body (evs1 ++ evs2).
Proof.
  intros [(resp & H & Hs)|(resp & H & Hs)]; exists resp; (split; [|exact Hs]);
    apply in_app_iff; auto.
Qed.

Lemma count_gets_app evs1 evs2 : count_gets (evs1 ++ evs2) = count_gets evs1 + count_gets evs2.
Proof. unfold count_gets. now rewrite filter_app, List.length_app. Qed.

(** One turn of the loop: both calls went through, or the current call
    failed, or the forecast call failed after the current record was stored,
    or an exception that is no request exception left the function. *)
Lemma fetch_location_cases w api_key wd location_name l tr r tr' :
  fetch_location w api_key wd location_name l tr = (r, tr') ->
  exists evs,
    tr' = tr ++ evs
    /\ 1 <= count_gets evs <= 2
    /\ ((exists cur fc,
            r = Ok (mkWeatherData (Dict.set (current wd) location_name cur)
                                  (Dict.set (forecast wd) location_name fc))
            /\ fetched_ok (current_url l api_key) cur evs
            /\ fetched_ok (forecast_url l api_key) fc evs
            /\ count_gets evs = 2)
        \/ (r = Ok wd /\ count_gets evs = 1)
        \/ (exists cur,
               r = Ok (mkWeatherData (Dict.set (current wd) location_name cur) (forecast wd))
               /\ fetched_ok (current_url l api_key) cur evs)
        \/ (exists e, r = Raise e /\ is_RequestException e = false)).
Proof.
  unfold fetch_location.
  destruct (fetch_api_data w (current_url l api_key) tr) as [[cur|e] tr1] eqn:E1.
  - apply fetch_api_data_ok in E1. destruct E1 as (resp1 & -> & Hs1 & Hb1).
    assert (F1 : forall rest, fetched_ok (current_url l api_key) cur
                                ([EvGet (current_url l api_key) (Ok resp1)] ++ rest)).
    { intros rest. apply fetched_ok_app. left. exists resp1. simpl. auto. }
    destruct (fetch_api_data w (forecast_url l api_key) _) as [[fc|e] tr2] eqn:E2.
    + apply fetch_api_data_ok in E2. destruct E2 as (resp2 & -> & Hs2 & Hb2).
      intros E. inversion E; subst. eexists. split; [now rewrite <- app_assoc|].
      split; [cbv [count_gets]; simpl; lia|]. left. exists cur, fc. repeat split; auto.
      apply fetched_ok_app. right. exists resp2. simpl. auto.
    + apply fetch_api_data_raise in E2. destruct E2 as (r2 & ->).
      run. destruct (is_RequestException e) eqn:Ee; intros E; inversion E; subst;
        (eexists; split; [rewrite <- ?app_assoc; reflexivity|]);
        (split; [cbv [count_gets]; simpl; lia|]).
      * right. right. left. exists cur. split; [reflexivity|]. apply F1.
      * right. right. right. now exists e.
  - apply fetch_api_data_raise in E1. destruct E1 as (r1 & ->).
    run. destruct (is_RequestException e) eqn:Ee; intros E; inversion E; subst;
      (eexists; split; [rewrite <- ?app_assoc; reflexivity|]);
      (split; [cbv [count_gets]; simpl; lia|]).
    + right. left. split; reflexivity.
    + right. right. right. now exists e.
Qed.

(** What the loop keeps true of the result, from any dict it starts with. *)
Lemma fetch_locations_spec w api_key locations wd0 tr0 r tr :
  fetch_locations w api_key locations wd0 tr0 = (r, tr) ->
  exists evs,
    tr = tr0 ++ evs
    /\ count_gets evs <= 2 * List.length locations
    /\ (forall e, r = Raise e -> is_RequestException e = false)
    /\ (forall wd, r = Ok wd ->
          List.length locations <= count_gets evs
          /\ ((forall name, In name (Dict.keys (forecast wd0)) ->
                            In name (Dict.keys (current wd0))) ->
              forall name, In name (Dict.keys (forecast wd)) ->
                           In name (Dict.keys (current wd)))
          /\ (forall name body,
                 Dict.get (current wd) name = Some body ->
                 Dict.get (current wd0) name = Some body
                 \/ exists l, In (name, l) locations
                              /\ fetched_ok (current_url l api_key) body evs)
          /\ (forall name body,
                 Dict.get (forecast wd) name = Some body ->
                 Dict.get (forecast wd0) name = Some body
                 \/ exists l cur, In (name, l) locations
                                  /\ fetched_ok (current_url l api_key) cur evs
                                  /\ fetched_ok (forecast_url l api_key) body evs)).
Proof.
  revert wd0 tr0 r tr. induction locations as [|[location_name l] rest IH];
    intros wd0 tr0 r tr H.
  - cbn [fetch_locations] in H. unfold ret in H. inversion H; subst.
    exists []. rewrite app_nil_r. split; [reflexivity|]. split; [cbv [count_gets]; simpl; lia|].
    split; [discriminate|]. intros wd E. inversion E; subst wd.
    split; [cbv [count_gets]; simpl; lia|]. split; [auto|]. split; intros; now left.
  - cbn [fetch_locations] in H. unfold bind in H.
    destruct (fetch_location w api_key wd0 location_name l tr0) as [r1 tr1] eqn:E1.
    destruct (fetch_location_cases _ _ _ _ _ _ _ _ E1) as (evs1 & -> & Hc1 & Hcase).
    destruct r1 as [wd1|e1].
    + destruct (IH _ _ _ _ H) as (evs2 & -> & Hc2 & Hraise & Hok).
      exists (evs1 ++ evs2). rewrite app_assoc. split; [reflexivity|].
      rewrite count_gets_app. cbn [List.length]. split; [lia|].
      split; [assumption|].
      intros wd Ewd. destruct (Hok wd Ewd) as (Hn & Hnest & Hcur & Hfc).
      split; [lia|].
      assert (Hwd1 :
                (wd1 = wd0)
                \/ (exists cur, current wd1 = Dict.set (current wd0) location_name cur
                                /\ fetched_ok (current_url l api_key) cur evs1
                                /\ (forecast wd1 = forecast wd0
                                    \/ exists fc,
                                         forecast wd1
                                         = Dict.set (forecast wd0) location_name fc
                                         /\ fetched_ok (forecast_url l api_key) fc evs1))).
      { destruct Hcase as [(cur & fc & E & F1 & F2 & _)|[(E & _)|[(cur & E & F1)|(e & E & _)]]];
          try discriminate; inversion E; subst.
        - right. exists cur. cbn. split; [reflexivity|]. split; [assumption|].
          right. now exists fc.
        - now left.
        - right. exists cur. cbn. auto. }
      split; [|split].
      * intros Hnest0. apply Hnest.
        destruct Hwd1 as [->|(cur & Ec & _ & [Ef|(fc & Ef & _)])]; [assumption| |];
          rewrite Ec, Ef; intros name Hin.
        -- apply In_keys_set. left. auto.
        -- apply In_keys_set. apply In_keys_set in Hin. destruct Hin; auto.
      * intros name body Hget. destruct (Hcur name body Hget) as [H1|(l' & Hin & F)].
        -- destruct Hwd1 as [->|(cur & Ec & F1 & _)]; [now left|].
           rewrite Ec in H1. destruct (String.eqb_spec location_name name) as [->|N].
           ++ rewrite get_set_eq in H1. inversion H1; subst body.
              right. exists l. split; [now left|]. apply fetched_ok_app. now left.
           ++ rewrite get_set_neq in H1 by assumption. now left.
        -- right. exists l'. split; [now right|]. apply fetched_ok_app. now right.
      * intros name body Hget.
        destruct (Hfc name body Hget) as [H1|(l' & cur' & Hin & F & F')].
        -- destruct Hwd1 as [->|(cur & Ec & F1 & [Ef|(fc & Ef & F2)])]; [now left| |].
           ++ rewrite Ef in H1. now left.
           ++ rewrite Ef in H1. destruct (String.eqb_spec location_name name) as [->|N].
              ** rewrite get_set_eq in H1. inversion H1; subst body.
                 right. exists l, cur. split; [now left|].
                 split; apply fetched_ok_app; now left.
              ** rewrite get_set_neq in H1 by assumption. now left.
        -- right. exists l', cur'. split; [now right|].
           split; apply fetched_ok_app; now right.
    + inversion H; subst. exists evs1. split; [reflexivity|].
      cbn [List.length]. split; [lia|]. split; [|discriminate].
      intros e E. inversion E; subst e.
      destruct Hcase as [(cur & fc & E' & _)|[(E' & _)|[(cur & E' & _)|(e' & E' & He)]]];
        try discriminate. now inversion E'; subst.
Qed.

Lemma get_weather_data_spec w locations api_key tr0 r tr :
  get_weather_data w locations api_key tr0 = (r, tr) ->
  exists r' tr' evs,
    fetch_locations w api_key locations (mkWeatherData [] []) tr0 = (r', tr')
    /\ tr' = tr0 ++ evs
    /\ r = r'
    /\ exists tail, tr = tr' ++ tail /\ count_gets tail = 0.
Proof.
  unfold get_weather_data. unfold bind at 1.
  destruct (fetch_locations w api_key locations (mkWeatherData [] []) tr0) as [r' tr'] eqn:E.
  destruct (fetch_locations_spec _ _ _ _ _ _ _ E) as (evs & -> & _).
  intros H. exists r', (tr0 ++ evs), evs. split; [reflexivity|]. split; [reflexivity|].
  destruct r' as [wd|e].
  - run. inversion H. split; [reflexivity|]. eexists. split; [reflexivity|]. reflexivity.
  - inversion H. split; [reflexivity|]. exists []. now rewrite app_nil_r.
Qed.

(** Every location of the ['forecast'] result is also in the ['current']
    result: a forecast record is stored only after the current record of the
    same location. *)
Theorem forecast_names_in_current (w : World) (locations : list (string * location))
    (api_key : string) (tr0 tr : trace) (wd : weather_data) :
  get_weather_data w locations api_key tr0 = (Ok wd, tr) ->
  forall name, In name (Dict.keys (forecast wd)) -> In name (Dict.keys (current wd)).
Proof.
  intros H. destruct (get_weather_data_spec _ _ _ _ _ _ H) as (r' & tr' & evs & E & _ & <- & _).
  destruct (fetch_locations_spec _ _ _ _ _ _ _ E) as (evs' & _ & _ & _ & Hok).
  destruct (Hok wd eq_refl) as (_ & Hnest & _). apply Hnest. intros name [].
Qed.

Lemma forecast_names_in_current_witness :
  In "Paris"
     (Dict.keys
        [("Paris", JDict [("dt", JInt 1700000000);
                          ("city", JDict [("name", JStr "Paris")]);
                          ("list", JList [])])]).
Proof.
  refine (forecast_names_in_current obliging_world paris "KEY" [] _
            (mkWeatherData
               [("Paris", JDict [("dt", JInt 1700000000);
                                 ("city", JDict [("name", JStr "Paris")]);
                                 ("list", JList [])])]
               [("Paris", JDict [("dt", JInt 1700000000);
                                 ("city", JDict [("name", JStr "Paris")]);
                                 ("list", JList [])])])
            eq_refl "Paris" _).
  simpl. auto.
Defined.

(** Every record of the result was fetched in this run: a ['current'] record
    is the body of a successful request of that location's current URL, and a
    ['forecast'] record is the body of a successful request of its forecast
    URL, made after a successful request of its current URL. *)
Theorem weather_data_provenance (w : World) (locations : list (string * location))
    (api_key : string) (tr0 tr : trace) (wd : weather_data) :
  get_weather_data w locations api_key tr0 = (Ok wd, tr) ->
  exists evs,
    tr = tr0 ++ evs
    /\ (forall name body,
           Dict.get (current wd) name = Some body ->
           exists l, In (name, l) locations
                     /\ fetched_ok (current_url l api_key) body evs)
    /\ (forall name body,
           Dict.get (forecast wd) name = Some body ->
           exists l cur, In (name, l) locations
                         /\ fetched_ok (current_url l api_key) cur evs
                         /\ fetched_ok (forecast_url l api_key) body evs).
Proof.
  intros H.
  destruct (get_weather_data_spec _ _ _ _ _ _ H)
    as (r' & tr' & evs & E & -> & <- & tail & -> & _).
  destruct (fetch_locations_spec _ _ _ _ _ _ _ E) as (evs' & Ee & _ & _ & Hok).
  apply app_inv_head in Ee. subst evs'.
  destruct (Hok wd eq_refl) as (_ & _ & Hcur & Hfc).
  exists (evs ++ tail). rewrite app_assoc. split; [reflexivity|]. split.
  - intros name body Hget. destruct (Hcur name body Hget) as [H0|(l & Hin & F)];
      [discriminate|].
    exists l. split; [assumption|]. apply fetched_ok_app. now left.
  - intros name body Hget.
    destruct (Hfc name body Hget) as [H0|(l & cur & Hin & F & F')]; [discriminate|].
    exists l, cur. split; [assumption|]. split; apply fetched_ok_app; now left.
Qed.

Lemma weather_data_provenance_witness :
  exists evs,
    snd (get_weather_data forecast_down_world paris "KEY" []) = [] ++ evs
    /\ (forall name body,
           Dict.get [("Paris", JDict [("dt", JInt 1700000000)])] name = Some body ->
           exists l, In (name, l) paris /\ fetched_ok (current_url l "KEY") body evs).
Proof.
  destruct (weather_data_provenance forecast_down_world paris "KEY" [] _ _ eq_refl)
    as (evs & E & Hcur & _).
  exists evs. split; [exact E|exact Hcur].
Defined.

(** A failed request never makes the fetcher raise: the only exceptions that
    leave it are those that are no request exceptions. *)
Theorem fetch_raises_no_request_exception (w : World)
    (locations : list (string * location)) (api_key : string) (tr0 tr : trace) (e : exn) :
  get_weather_data w locations api_key tr0 = (Raise e, tr) ->
  is_RequestException e = false.
Proof.
  intros H. destruct (get_weather_data_spec _ _ _ _ _ _ H) as (r' & tr' & evs & E & _ & <- & _).
  destruct (fetch_locations_spec _ _ _ _ _ _ _ E) as (evs' & _ & _ & Hraise & _).
  now apply Hraise.
Qed.

Lemma fetch_raises_no_request_exception_witness :
  is_RequestException (ValueError "Expecting value") = false.
Proof.
  exact (fetch_raises_no_request_exception garbled_world paris "KEY" [] _ _ eq_refl).
Defined.




(** ** Weather fetcher: a provider that always answers *)

Lemma fetch_api_data_responsive w url tr :
  responsive w ->
  exists resp body,
    fetch_api_data w url tr = (Ok body, tr ++ [EvGet url (Ok resp)]).
Proof.
  intros Hw. destruct (Hw tr url) as (resp & body & E & Hs & Hb).
  exists resp, body. unfold fetch_api_data. run. now rewrite E, Hs, Hb.
Qed.

Lemma fetch_locations_responsive w api_key locations wd0 tr0 :
  responsive w ->
  NoDup (map fst locations) ->
  (forall n, In n (map fst locations) ->
             ~ In n (Dict.keys (current wd0)) /\ ~ In n (Dict.keys (forecast wd0))) ->
  exists wd evs,
    fetch_locations w api_key locations wd0 tr0 = (Ok wd, tr0 ++ evs)
    /\ Dict.keys (current wd) = Dict.keys (current wd0) ++ map fst locations
    /\ Dict.keys (forecast wd) = Dict.keys (forecast wd0) ++ map fst locations
    /\ count_gets evs = 2 * List.length locations.
Proof.
  intros Hw. revert wd0 tr0.
  induction locations as [|[location_name l] rest IH]; intros wd0 tr0 ND Hnew.
  - exists wd0, []. cbn. rewrite !app_nil_r. auto.
  - cbn [map fst] in ND, Hnew. inversion ND as [|? ? Hnotin ND']; subst.
    destruct (Hnew location_name (or_introl eq_refl)) as [Hc Hf].
    cbn [fetch_locations]. unfold bind, fetch_location.
    destruct (fetch_api_data_responsive w (current_url l api_key) tr0 Hw)
      as (resp1 & cur & ->).
    destruct (fetch_api_data_responsive w (forecast_url l api_key)
                (tr0 ++ [EvGet (current_url l api_key) (Ok resp1)]) Hw)
      as (resp2 & fc & ->).
    cbn [current forecast].
    set (wd1 := mkWeatherData (Dict.set (current wd0) location_name cur)
                              (Dict.set (forecast wd0) location_name fc)).
    destruct (IH wd1 ((tr0 ++ [EvGet (current_url l api_key) (Ok resp1)])
                        ++ [EvGet (forecast_url l api_key) (Ok resp2)]) ND')
      as (wd & evs & E & Kc & Kf & Hn).
    { intros n Hn. unfold wd1. cbn [current forecast].
      rewrite !In_keys_set. destruct (Hnew n (or_intror Hn)) as [H1 H2].
      assert (n <> location_name) by (intros ->; contradiction). tauto. }
    exists wd, ([EvGet (current_url l api_key) (Ok resp1);
                 EvGet (forecast_url l api_key) (Ok resp2)] ++ evs).
    rewrite E, Kc, Kf, count_gets_app, Hn. unfold wd1. cbn [current forecast].
    rewrite !keys_set.
    apply mem_false in Hc. apply mem_false in Hf. rewrite Hc, Hf.
    rewrite <- !app_assoc. cbn [app map fst List.length].
    repeat split. cbv [count_gets]. simpl. lia.
Qed.

(** With a provider that answers every request, the fetcher returns, makes
    exactly two requests per location, and both results hold exactly the
    locations of the registry, in its order. *)
Theorem fetch_all_locations (w : World) (locations : list (string * location))
    (api_key : string) (tr0 : trace) :
  responsive w ->
  NoDup (map fst locations) ->
  exists wd evs,
    get_weather_data w locations api_key tr0 = (Ok wd, tr0 ++ evs)
    /\ Dict.keys (current wd) = map fst locations
    /\ Dict.keys (forecast wd) = map fst locations
    /\ count_gets evs = 2 * List.length locations.
Proof.
  intros Hw ND.
  destruct (fetch_locations_responsive w api_key locations (mkWeatherData [] []) tr0 Hw ND)
    as (wd & evs & E & Kc & Kf & Hn).
  { intros n _. cbn. tauto. }
  exists wd, (evs ++ [EvPrint (PStr "Weather Data for all locations have been fetched...")]).
  unfold get_weather_data. unfold bind at 1. rewrite E. run.
  rewrite app_assoc. split; [reflexivity|]. split; [exact Kc|]. split; [exact Kf|].
  rewrite count_gets_app, Hn. cbv [count_gets]. simpl. lia.
Qed.

Lemma fetch_all_locations_witness :
  exists wd evs,
    get_weather_data obliging_world paris "KEY" [] = (Ok wd, [] ++ evs)
    /\ Dict.keys (current wd) = ["Paris"]
    /\ Dict.keys (forecast wd) = ["Paris"]
    /\ count_gets evs = 2.
Proof.
  apply (fetch_all_locations obliging_world paris "KEY" []).
  - intros tr url. eexists. eexists. repeat split.
  - repeat constructor. simpl. tauto.
Defined.

(** ** Table writer: the dataset step and the single load job *)

Lemma load_dataframe_submits w dataframe table_id tr :
  exists loaded rest,
    snd (load_dataframe w dataframe table_id tr)
    = tr ++ EvLoad dataframe table_id job_config loaded :: rest.
Proof.
  unfold load_dataframe. run.
  exists (load_table_from_dataframe w tr dataframe table_id job_config).
  repeat destruct_innermost; cbn [snd]; rewrite <- ?app_assoc; cbn [app];
    eexists; reflexivity.
Qed.

(** Whatever [create_dataset] does, also an exception of any class, the write
    goes on: once the client and the dataset object exist, the function logs
    the creation or [Dataset already exists] and submits the load job. *)
Theorem dataset_creation_never_fatal (w : World) (s : Settings) (dataframe : DataFrame)
    (project_id dataset_id table_name : string) (tr : trace) :
  let qualified := (project_id ++ "." ++ dataset_id)%string in
  let table_id := (qualified ++ "." ++ table_name)%string in
  let tr1 :=
    if LOCAL_RUNNING s
    then tr ++ [EvSetEnv "GOOGLE_APPLICATION_CREDENTIALS" "service_account.json"]
    else tr in
  new_Client w tr1 = Ok tt ->
  new_Dataset w qualified = Ok tt ->
  let tr2 := tr1 ++ [EvClient (Ok tt)] in
  let created := create_dataset w tr2 qualified in
  let logged :=
    EvPrint (match created with
             | Ok _ => PCreatedDataset qualified
             | Raise _ => PStr "Dataset already exists"
             end) in
  ensure_dataset w s project_id dataset_id tr
  = (Ok qualified, tr2 ++ [EvCreateDataset qualified created; logged])
  /\ exists loaded rest,
       snd (upload_df_to_bigquery w s dataframe project_id dataset_id table_name tr)
       = tr2 ++ [EvCreateDataset qualified created; logged;
                 EvPrint (PStr "Created a BigQuery job_config variable")]
             ++ EvLoad dataframe table_id job_config loaded :: rest.
Proof.
  cbv zeta. intros Hc Hd.
  set (tr1 := if LOCAL_RUNNING s
              then tr ++ [EvSetEnv "GOOGLE_APPLICATION_CREDENTIALS" "service_account.json"]
              else tr) in *.
  set (qualified := (project_id ++ "." ++ dataset_id)%string) in *.
  set (created := create_dataset w (tr1 ++ [EvClient (Ok tt)]) qualified).
  assert (E : ensure_dataset w s project_id dataset_id tr
              = (Ok qualified,
                 (tr1 ++ [EvClient (Ok tt)])
                 ++ [EvCreateDataset qualified created;
                     EvPrint (match created with
                              | Ok _ => PCreatedDataset qualified
                              | Raise _ => PStr "Dataset already exists"
                              end)])).
  { unfold ensure_dataset. run. subst created tr1. fold qualified. revert Hc.
    destruct (LOCAL_RUNNING s); intros Hc; cbv beta iota; rewrite Hc; cbv beta iota;
      rewrite Hd; cbv beta iota;
      destruct (create_dataset w _ qualified) as [[]|e]; cbv beta iota;
      rewrite <- ?app_assoc; reflexivity. }
  split; [exact E|].
  unfold upload_df_to_bigquery, bind at 1. rewrite E.
  unfold bind, print, emit. fold qualified.
  destruct (load_dataframe_submits w dataframe (qualified ++ "." ++ table_name)%string
              (((tr1 ++ [EvClient (Ok tt)])
                ++ [EvCreateDataset qualified created;
                    EvPrint (match created with
                             | Ok _ => PCreatedDataset qualified
                             | Raise _ => PStr "Dataset already exists"
                             end)])
               ++ [EvPrint (PStr "Created a BigQuery job_config variable")]))
    as (loaded & rest & ->).
  exists loaded, rest. rewrite <- !app_assoc. reflexivity.
Qed.

Lemma dataset_creation_never_fatal_witness :
  exists loaded rest,
    snd (upload_df_to_bigquery interrupted_world sample_settings DataFrame_empty
           "project" "weather" "current_weather" [])
    = [EvClient (Ok tt);
       EvCreateDataset "project.weather" (Raise KeyboardInterrupt);
       EvPrint (PStr "Dataset already exists");
       EvPrint (PStr "Created a BigQuery job_config variable")]
      ++ EvLoad DataFrame_empty "project.weather.current_weather" job_config loaded :: rest.
Proof.
  exact (proj2 (dataset_creation_never_fatal interrupted_world sample_settings
                  DataFrame_empty "project" "weather" "current_weather" []
                  eq_refl eq_refl)).
Defined.

Ltac close_loads :=
  repeat match goal with u : unit |- _ => destruct u end;
  cbn [fst snd]; eexists; split;
  [rewrite <- ?app_assoc; reflexivity
  |split;
   [cbn [app]; repeat first [apply Forall_nil | apply Forall_cons; [simpl; auto|]]
   |split;
    [cbn [app filter is_load List.length]; lia
    |split;
     [intros r0 Hin; cbn [app In] in Hin |- *;
      repeat (destruct Hin as [Hin|Hin]; [try discriminate Hin|]);
      try contradiction; auto 20
     |eexists; cbn [app In]; auto 20]]]].

(** What a write sends to the warehouse: at most one load job, of the frame
    and table it was given, with the replacing configuration; and it waits
    for a job only after submitting it with success. *)
Lemma upload_loads w s dataframe project_id dataset_id table_name tr :
  let table_id := ((project_id ++ "." ++ dataset_id) ++ "." ++ table_name)%string in
  exists evs,
    snd (upload_df_to_bigquery w s dataframe project_id dataset_id table_name tr) = tr ++ evs
    /\ Forall (load_of dataframe table_id) evs
    /\ List.length (filter is_load evs) <= 1
    /\ (forall r, In (EvJobResult table_id r) evs ->
                  In (EvLoad dataframe table_id job_config (Ok tt)) evs)
    /\ (exists res, In (EvClient res) evs).
Proof.
  cbv zeta. unfold upload_df_to_bigquery, ensure_dataset, load_dataframe. run.
  repeat destruct_innermost; close_loads.
Qed.

(** A write submits at most one load job, for the frame and the table it was
    given and with schema detection and [WRITE_TRUNCATE]: it never appends
    and never loads anything else; and it waits for a job only after
    submitting it with success. *)
Theorem upload_single_load (w : World) (s : Settings) (dataframe : DataFrame)
    (project_id dataset_id table_name : string) (tr : trace) :
  let table_id := ((project_id ++ "." ++ dataset_id) ++ "." ++ table_name)%string in
  exists evs,
    snd (upload_df_to_bigquery w s dataframe project_id dataset_id table_name tr) = tr ++ evs
    /\ Forall (load_of dataframe table_id) evs
    /\ List.length (filter is_load evs) <= 1
    /\ (forall r, In (EvJobResult table_id r) evs ->
                  In (EvLoad dataframe table_id job_config (Ok tt)) evs)
    /\ write_disposition job_config = "WRITE_TRUNCATE"
    /\ autodetect job_config = true.
Proof.
  cbv zeta.
  destruct (upload_loads w s dataframe project_id dataset_id table_name tr)
    as (evs & E & F & L & W & _).
  exists evs. repeat split; assumption.
Qed.

(** A failure of the load that is no [Exception], such as an interrupt, is
    raised to the caller without the diagnostic lines. *)
Theorem upload_interrupt_not_logged (w : World) (s : Settings) (dataframe : DataFrame)
    (project_id dataset_id table_name : string) (tr0 tr1 : trace) (qualified : string) :
  ensure_dataset w s project_id dataset_id tr0 = (Ok qualified, tr1) ->
  let table_id := ((project_id ++ "." ++ dataset_id) ++ "." ++ table_name)%string in
  let tr2 := tr1 ++ [EvPrint (PStr "Created a BigQuery job_config variable")] in
  let loaded := load_table_from_dataframe w tr2 dataframe table_id job_config in
  let tr3 := tr2 ++ [EvLoad dataframe table_id job_config loaded] in
  let waited := job_result w tr3 table_id in
  let outcome :=
    upload_df_to_bigquery w s dataframe project_id dataset_id table_name tr0 in
  (forall e, loaded = Raise e -> is_Exception e = false -> outcome = (Raise e, tr3))
  /\ (forall e, loaded = Ok tt -> waited = Raise e -> is_Exception e = false ->
                outcome = (Raise e, tr3 ++ [EvJobResult table_id waited])).
Proof.
  intros Hsetup. pose proof (ensure_dataset_id _ _ _ _ _ _ _ Hsetup) as ->.
  cbv zeta. unfold upload_df_to_bigquery, load_dataframe. run.
  rewrite Hsetup. cbv beta iota. split.
  - intros e E He. rewrite E. cbv beta iota. rewrite He. reflexivity.
  - intros e E1 E2 He. rewrite E1 in *. cbv beta iota. rewrite E2. cbv beta iota.
    rewrite He. reflexivity.
Qed.

Lemma upload_interrupt_not_logged_witness :
  upload_df_to_bigquery interrupted_world sample_settings DataFrame_empty
    "project" "weather" "current_weather" []
  = (Raise KeyboardInterrupt,
     [EvClient (Ok tt);
      EvCreateDataset "project.weather" (Raise KeyboardInterrupt);
      EvPrint (PStr "Dataset already exists");
      EvPrint (PStr "Created a BigQuery job_config variable");
      EvLoad DataFrame_empty "project.weather.current_weather" job_config (Ok tt);
      EvJobResult "project.weather.current_weather" (Raise KeyboardInterrupt)]).
Proof.
  exact (proj2 (upload_interrupt_not_logged interrupted_world sample_settings DataFrame_empty
                  "project" "weather" "current_weather" [] _ _ eq_refl)
           KeyboardInterrupt eq_refl eq_refl eq_refl).
Defined.

(** ** Orchestrator: when a run stops, and what a success has done *)



(** A record the transformers cannot take ends the run after the fetch and
    before the warehouse is contacted: the run raises the transformer's
    exception and its events are those of fetching alone. *)
Theorem main_stops_before_writes (w : World) (s : Settings)
    (locations_dict : list (string * location)) (r : request) (body : json)
    (data : weather_data) (tr0 tr1 : trace) (e : exn) :
  request_body w r = Ok body ->
  get_weather_data w locations_dict (API_KEY s) tr0 = (Ok data, tr1) ->
  current_tables w (current data) DataFrame_empty = Raise e
  \/ ((exists current_weather,
          current_tables w (current data) DataFrame_empty = Ok current_weather)
      /\ forecast_tables (forecast data) DataFrame_empty = Raise e) ->
  main w s locations_dict r tr0 = (Raise e, tr1)
  /\ exists evs, tr1 = tr0 ++ evs /\ Forall fetch_event evs.
Proof.
  intros Hb Hg Ht. split.
  - unfold main. unfold bind at 1. unfold lift at 1. rewrite Hb.
    unfold bind at 1. rewrite Hg. unfold bind at 1. unfold lift at 1.
    destruct Ht as [Hc|[(cw & Hc) Hf]]; rewrite Hc; [reflexivity|].
    unfold bind at 1. unfold lift at 1. now rewrite Hf.
  - destruct (get_weather_data_trace w locations_dict (API_KEY s) tr0) as (evs & E & F).
    rewrite Hg in E. now exists evs.
Qed.

Lemma main_stops_before_writes_witness :
  main empty_reply_world sample_settings paris (RawPayload "{}") []
  = (Raise (KeyError (JStr "city")),
     [EvGet (current_url (mkLocation (NFloat "48.85") (NFloat "2.35")) "KEY")
        (Ok (mkResponse (Ok tt) (Ok (JDict []))));
      EvGet (forecast_url (mkLocation (NFloat "48.85") (NFloat "2.35")) "KEY")
        (Ok (mkResponse (Ok tt) (Ok (JDict []))));
      EvPrint (PStr "Weather Data for all locations have been fetched...")]).
Proof.
  refine (proj1 (main_stops_before_writes empty_reply_world sample_settings paris
                   (RawPayload "{}") (JDict [])
                   (mkWeatherData [("Paris", JDict [])] [("Paris", JDict [])])
                   [] _ (KeyError (JStr "city")) eq_refl eq_refl _)).
  right. split; [eexists|]; reflexivity.
Defined.

(** A run returns only after both load jobs have been submitted and waited
    for with success, the one of the current table first. *)
Theorem main_success_means_both_loaded (w : World) (s : Settings)
    (locations_dict : list (string * location)) (r : request) (tr0 : trace)
    (status : string) :
  fst (main w s locations_dict r tr0) = Ok status ->
  exists current_weather forecast_weather evs1 evs2 evs3,
    snd (main w s locations_dict r tr0) = tr0 ++ evs1 ++ evs2 ++ evs3
    /\ In (EvLoad current_weather (table_id_of s "current_weather") job_config (Ok tt)) evs2
    /\ In (EvJobResult (table_id_of s "current_weather") (Ok tt)) evs2
    /\ In (EvLoad forecast_weather (table_id_of s "forecasted_weather") job_config (Ok tt))
          evs3
    /\ In (EvJobResult (table_id_of s "forecasted_weather") (Ok tt)) evs3.
Proof.
  destruct (main w s locations_dict r tr0) as [res tr] eqn:Hmain. cbn [fst snd].
  intros ->. revert Hmain.
  unfold main. unfold bind at 1. unfold lift at 1.
  destruct (request_body w r) as [body|e]; [|discriminate].
  unfold bind at 1.
  destruct (get_weather_data_trace w locations_dict (API_KEY s) tr0) as (evs1 & E1 & _).
  destruct (get_weather_data w locations_dict (API_KEY s) tr0) as [[data|e] tr1];
    [|discriminate]. cbn [snd] in E1. subst tr1.
  unfold bind at 1. unfold lift at 1.
  destruct (current_tables w (current data) DataFrame_empty) as [cw|e]; [|discriminate].
  unfold bind at 1. unfold lift at 1.
  destruct (forecast_tables (forecast data) DataFrame_empty) as [fw|e]; [|discriminate].
  unfold bind at 1.
  destruct (upload_trace w s cw (GCP_PROJECT_ID s) (DATASET_ID s) "current_weather"
              (tr0 ++ evs1)) as (evs2 & E2 & _ & D2).
  fold (table_id_of s "current_weather") in D2.
  destruct (upload_df_to_bigquery w s cw (GCP_PROJECT_ID s) (DATASET_ID s)
              "current_weather" (tr0 ++ evs1)) as [[[]|e] tr2]; [|discriminate].
  cbn [fst snd] in E2, D2. subst tr2. destruct (D2 eq_refl) as [L2 W2].
  unfold bind at 1.
  destruct (upload_trace w s fw (GCP_PROJECT_ID s) (DATASET_ID s) "forecasted_weather"
              ((tr0 ++ evs1) ++ evs2)) as (evs3 & E3 & _ & D3).
  fold (table_id_of s "forecasted_weather") in D3.
  destruct (upload_df_to_bigquery w s fw (GCP_PROJECT_ID s) (DATASET_ID s)
              "forecasted_weather" ((tr0 ++ evs1) ++ evs2)) as [[[]|e] tr3]; [|discriminate].
  cbn [fst snd] in E3, D3. subst tr3. destruct (D3 eq_refl) as [L3 W3].
  unfold ret. intros Hmain. inversion Hmain; subst.
  exists cw, fw, evs1, evs2, evs3. rewrite <- !app_assoc. auto.
Qed.

Lemma main_success_means_both_loaded_witness :
  exists current_weather forecast_weather evs1 evs2 evs3,
    snd (main obliging_world sample_settings paris (RawPayload "{}") [])
    = [] ++ evs1 ++ evs2 ++ evs3
    /\ In (EvLoad current_weather (table_id_of sample_settings "current_weather")
             job_config (Ok tt)) evs2
    /\ In (EvJobResult (table_id_of sample_settings "current_weather") (Ok tt)) evs2
    /\ In (EvLoad forecast_weather (table_id_of sample_settings "forecasted_weather")
             job_config (Ok tt)) evs3
    /\ In (EvJobResult (table_id_of sample_settings "forecasted_weather") (Ok tt)) evs3.
Proof.
  exact (main_success_means_both_loaded obliging_world sample_settings paris
           (RawPayload "{}") [] "200, Success" eq_refl).
Defined.

Lemma Forall_load_of_In dataframe table_id evs df t c r :
  Forall (load_of dataframe table_id) evs -> In (EvLoad df t c r) evs -> df = dataframe.
Proof.
  intros F Hin. rewrite Forall_forall in F. specialize (F _ Hin). simpl in F. tauto.
Qed.

Lemma count_gets_write_events table_id evs :
  Forall (write_event table_id) evs -> count_gets evs = 0.
Proof.
  induction 1 as [|ev evs Hev _ IH]; [reflexivity|].
  destruct ev; simpl in Hev; try contradiction; exact IH.
Qed.

(** With an empty registry a run whose payload parses makes no request and
    still goes to the warehouse: it builds the client, and every load job it
    submits carries a table without rows or columns, which replaces the
    destination table. *)
Theorem main_empty_registry (w : World) (s : Settings) (r : request) (body : json)
    (tr0 : trace) :
  request_body w r = Ok body ->
  exists evs,
    snd (main w s [] r tr0) = tr0 ++ evs
    /\ count_gets evs = 0
    /\ (exists res, In (EvClient res) evs)
    /\ (forall df t c res, In (EvLoad df t c res) evs -> df = DataFrame_empty).
Proof.
  intros Hb. unfold main. unfold bind at 1. unfold lift at 1. rewrite Hb.
  unfold bind at 1.
  replace (get_weather_data w [] (API_KEY s) tr0)
    with (Ok (mkWeatherData [] []),
          tr0 ++ [EvPrint (PStr "Weather Data for all locations have been fetched...")])
    by reflexivity.
  cbn [current forecast current_tables forecast_tables].
  unfold bind at 1. unfold lift at 1. unfold bind at 1. unfold lift at 1.
  set (tr1 := tr0 ++ [EvPrint (PStr "Weather Data for all locations have been fetched...")]).
  unfold bind at 1.
  destruct (upload_loads w s DataFrame_empty (GCP_PROJECT_ID s) (DATASET_ID s)
              "current_weather" tr1) as (evs2 & E2 & F2 & _ & _ & C2).
  destruct (upload_trace w s DataFrame_empty (GCP_PROJECT_ID s) (DATASET_ID s)
              "current_weather" tr1) as (evs2' & E2' & G2 & _).
  rewrite E2 in E2'. apply app_inv_head in E2'. subst evs2'.
  apply count_gets_write_events in G2.
  destruct (upload_df_to_bigquery w s DataFrame_empty (GCP_PROJECT_ID s) (DATASET_ID s)
              "current_weather" tr1) as [[[]|e] tr2]; cbn [snd] in E2; subst tr2.
  - unfold bind at 1.
    destruct (upload_loads w s DataFrame_empty (GCP_PROJECT_ID s) (DATASET_ID s)
                "forecasted_weather" (tr1 ++ evs2)) as (evs3 & E3 & F3 & _).
    destruct (upload_trace w s DataFrame_empty (GCP_PROJECT_ID s) (DATASET_ID s)
                "forecasted_weather" (tr1 ++ evs2)) as (evs3' & E3' & G3 & _).
    rewrite E3 in E3'. apply app_inv_head in E3'. subst evs3'.
    apply count_gets_write_events in G3.
    exists ([EvPrint (PStr "Weather Data for all locations have been fetched...")]
              ++ evs2 ++ evs3).
    split.
    + destruct (upload_df_to_bigquery w s DataFrame_empty (GCP_PROJECT_ID s) (DATASET_ID s)
                  "forecasted_weather" (tr1 ++ evs2)) as [[[]|e] tr3];
        cbn [snd] in E3; subst tr3; cbn [snd ret]; unfold tr1;
        now rewrite <- !app_assoc.
    + rewrite !count_gets_app, G2, G3. split; [reflexivity|]. split.
      * destruct C2 as (res & Hres). exists res. apply in_app_iff. right.
        apply in_app_iff. now left.
      * intros df t c res Hin. apply in_app_iff in Hin. destruct Hin as [[Hin|[]]|Hin];
          [discriminate|]. apply in_app_iff in Hin. destruct Hin as [Hin|Hin];
          (eapply Forall_load_of_In; [|exact Hin]; eassumption).
  - exists ([EvPrint (PStr "Weather Data for all locations have been fetched...")] ++ evs2).
    cbn [snd]. unfold tr1. rewrite <- app_assoc. split; [reflexivity|].
    rewrite count_gets_app, G2. split; [reflexivity|]. split.
    + destruct C2 as (res & Hres). exists res. apply in_app_iff. now right.
    + intros df t c res Hin. apply in_app_iff in Hin. destruct Hin as [[Hin|[]]|Hin];
        [discriminate|]. (eapply Forall_load_of_In; [|exact Hin]; eassumption).
Qed.

Lemma main_empty_registry_witness :
  exists evs,
    snd (main obliging_world sample_settings [] (RawPayload "{}") []) = [] ++ evs
    /\ count_gets evs = 0
    /\ (exists res, In (EvClient res) evs)
    /\ (forall df t c res, In (EvLoad df t c res) evs -> df = DataFrame_empty).
Proof.
  exact (main_empty_registry obliging_world sample_settings (RawPayload "{}") (JDict []) []
           eq_refl).
Defined.
